(** * Resume screener (app.py): a shallow embedding and its verified properties

    The program is a single Streamlit script.  It is embedded in two layers:

    - the pure computations of the script (string helpers, the dispatch on the
      file extension, the filter / sort / export pipeline) as Rocq functions;
    - the script itself as a state-passing computation over an explicit
      application state: the Python list objects it allocates and mutates, the
      session entry [st.session_state.results], the trace of rendered elements
      and external calls, and the state of the outside world (the model
      provider), which the external calls thread.

    Python [str] values are modelled by their UTF-8 bytes: containment,
    splitting at a dot, concatenation and emptiness are the same on the bytes
    as on the code points.  [str.lower] follows the Unicode tables of the
    interpreter; it is taken from the interpreter (class [Unicode]) together
    with what it does on ASCII text.  The score of an analysis is an integer,
    as in the data model of the specification. *)

From Stdlib Require Import ZArith Ascii String List Sorting.Sorted Sorting.Permutation Lia.
From stdpp Require Import base option list gmap strings pretty.

Local Open Scope Z_scope.

(* ===================================================================== *)
(** * Python string built-ins used by the script *)
(* ===================================================================== *)

Module PyStr.

(** [c.lower()] on one character: the ASCII capitals move to lower case. *)
Definition lower_ascii (c : ascii) : ascii :=
  let n := nat_of_ascii c in
  if ((65 <=? n) && (n <=? 90))%nat then ascii_of_nat (n + 32) else c.

(** [s.lower()] for a string [s] of ASCII characters: character by
    character.  (For other text see [Unicode.str_lower] below.) *)
Fixpoint ascii_lower (s : string) : string :=
  match s with
  | EmptyString => EmptyString
  | String c s' => String (lower_ascii c) (ascii_lower s')
  end.

(** [s.isascii()]: every character is below 128. *)
Fixpoint ascii_only (s : string) : bool :=
  match s with
  | EmptyString => true
  | String c s' => (nat_of_ascii c <? 128)%nat && ascii_only s'
  end.

(** [s.startswith(p)] *)
Fixpoint startswith (p s : string) : bool :=
  match p, s with
  | EmptyString, _ => true
  | String a p', String b s' => Ascii.eqb a b && startswith p' s'
  | String _ _, EmptyString => false
  end.

(** [needle in hay] for two strings: naive search from every position. *)
Fixpoint contains (needle hay : string) : bool :=
  startswith needle hay ||
  match hay with
  | EmptyString => false
  | String _ hay' => contains needle hay'
  end.

(** Truth value of a string: [bool(s)] is false exactly for the empty one. *)
Definition truthy (s : string) : bool :=
  match s with EmptyString => false | String _ _ => true end.

(** [s.split('.')]: never empty; [acc] holds the current piece reversed. *)
Fixpoint split_dot_aux (acc : string) (s : string) : list string :=
  match s with
  | EmptyString => [String.rev acc]
  | String c s' =>
      if Ascii.eqb c "."%char
      then String.rev acc :: split_dot_aux EmptyString s'
      else split_dot_aux (String c acc) s'
  end.

Definition split_dot (s : string) : list string := split_dot_aux EmptyString s.

(** [l[-1]] on a list of strings ([IndexError] cannot occur after a split;
    the default is never reached there). *)
Definition last_item (l : list string) : string := List.last l EmptyString.

(** [sep.join(parts)] *)
Fixpoint join (sep : string) (parts : list string) : string :=
  match parts with
  | [] => EmptyString
  | [p] => p
  | p :: ps => p +:+ sep +:+ join sep ps
  end.

End PyStr.

(** What the script obtains from the interpreter's Unicode tables:
    [str.lower].  On text beyond ASCII it depends on those tables (and on the
    context of a letter, as for the final sigma), so it is not computed here;
    what is used of it is that on ASCII text it lowers the letters A to Z and
    nothing else, and that it never turns a non-empty string into the empty
    one. *)
Class Unicode := {
  (** [s.lower()] *)
  str_lower : string -> string;
  str_lower_ascii :
    forall s, PyStr.ascii_only s = true -> str_lower s = PyStr.ascii_lower s;
  str_lower_empty : forall s, str_lower s = "" -> s = ""
}.

(** The newline character and the one-character string ["\n"]. *)
Definition nl : string := String (ascii_of_nat 10) EmptyString.

(* ===================================================================== *)
(** * Data model *)
(* ===================================================================== *)

(** The object an upload widget hands to the script. *)
Record UploadedFile := {
  file_name : string;          (* uploaded_file.name *)
  file_type : string;          (* uploaded_file.type, the declared MIME type *)
  file_data : list Byte.byte   (* uploaded_file.read() / getvalue() *)
}.

(** The dict decoded from the scorer's schema-constrained JSON answer.  Its
    keys are those of [response_schema], with values of the schema's types; the
    script reads every key through [.get(key, default)], so each key may be
    absent. *)
Record CandidateAnalysis := {
  name : option string;
  email : option string;
  phone : option string;
  score : option Z;
  justification : option string;
  location : option string;
  matching_keywords : option (list string)
}.

(** [d.get(key, dflt)] on a key that may be absent. *)
Definition get {A} (field : option A) (dflt : A) : A := default dflt field.

(** [key in d] *)
Definition has_key {A} (field : option A) : bool :=
  match field with Some _ => true | None => false end.

(** Truth value of the dict: false exactly when it has no key at all. *)
Definition analysis_truthy (a : CandidateAnalysis) : bool :=
  has_key (name a) || has_key (email a) || has_key (phone a)
  || has_key (score a) || has_key (justification a)
  || has_key (location a) || has_key (matching_keywords a).

(** [{"filename": file.name, "analysis": analysis}] *)
Record ScreeningResult := {
  filename : string;
  analysis : CandidateAnalysis
}.

(* ===================================================================== *)
(** * The filter / sort / export pipeline (pure part) *)
(* ===================================================================== *)

Module View.

(** [target_location.lower() in result['analysis'].get('location', '').lower()] *)
Definition location_matches {unicode : Unicode} (target_location : string)
           (result : ScreeningResult) : bool :=
  PyStr.contains (str_lower target_location)
                 (str_lower (get (location (analysis result)) "")).

(** [result['analysis'].get('score', 0) >= min_score] *)
Definition score_passes (min_score : Z) (result : ScreeningResult) : bool :=
  min_score <=? get (score (analysis result)) 0.

(** The two list comprehensions of the filtering logic, on list values. *)
Definition filtered_results {unicode : Unicode} (results : list ScreeningResult)
           (target_location : string) (min_score : Z) : list ScreeningResult :=
  let filtered :=
    if PyStr.truthy target_location
    then List.filter (location_matches target_location) results
    else results in
  List.filter (score_passes min_score) filtered.

(** The sort key [lambda x: x['analysis'].get('score', 0)]. *)
Definition sort_key (x : ScreeningResult) : Z := get (score (analysis x)) 0.

Section Sorted.
Context {A : Type} (key : A -> Z).

(** One step of a stable ascending sort: [x], which stood before every
    element of the sorted list [l], goes before the first element whose key
    is not smaller. *)
Fixpoint insert_stable (x : A) (l : list A) : list A :=
  match l with
  | [] => [x]
  | y :: l' => if key x <=? key y then x :: y :: l' else y :: insert_stable x l'
  end.

(** A stable ascending sort by [key] (the contract of [list.sort]). *)
Fixpoint stable_sort (l : list A) : list A :=
  match l with
  | [] => []
  | x :: l' => insert_stable x (stable_sort l')
  end.

(** [sorted(l, key=key, reverse=reverse)].  As in CPython, a reverse sort
    reverses the list, sorts it ascending and stably, and reverses the
    outcome. *)
Definition sorted (l : list A) (reverse : bool) : list A :=
  if reverse then rev (stable_sort (rev l)) else stable_sort l.
End Sorted.

(** [sorted(filtered_results, key=lambda x: ..., reverse=True)] *)
Definition sorted_results (filtered : list ScreeningResult) : list ScreeningResult :=
  sorted sort_key filtered true.

(** A spreadsheet cell. *)
Inductive cell := CStr (s : string) | CNum (z : Z).

(** One dict appended to [export_data]; a dict literal keeps its keys in the
    order they are written. *)
Definition export_row (result : ScreeningResult) : list (string * cell) :=
  let a := analysis result in
  [ ("Name", CStr (get (name a) "N/A"));
    ("Email", CStr (get (email a) "N/A"));
    ("Phone", CStr (get (phone a) "N/A"));
    ("Score", CNum (get (score a) 0));
    ("Location", CStr (get (location a) "N/A"));
    ("Filename", CStr (filename result)) ].

(** The loop that fills [export_data]. *)
Definition export_data (sorted_results : list ScreeningResult) : list (list (string * cell)) :=
  map export_row sorted_results.

(** [pd.DataFrame(records)] for a list of dicts: the columns are the keys in
    order of first appearance; a record without a column's key leaves the
    cell empty. *)
Record DataFrame := {
  columns : list string;
  rows : list (list (option cell))
}.

Fixpoint add_new_keys (seen : list string) (keys : list string) : list string :=
  match keys with
  | [] => seen
  | k :: ks =>
      if bool_decide (k ∈ seen) then add_new_keys seen ks
      else add_new_keys (seen ++ [k]) ks
  end.

Definition record_lookup (record : list (string * cell)) (k : string) : option cell :=
  snd <$> List.find (fun kv => bool_decide (fst kv = k)) record.

Definition DataFrame_of (records : list (list (string * cell))) : DataFrame :=
  let cols := fold_left (fun seen r => add_new_keys seen (map fst r)) records [] in
  {| columns := cols;
     rows := map (fun r => map (record_lookup r) cols) records |}.

(** The workbook written by [df.to_excel(writer, index=False, sheet_name=...)]:
    one sheet, a header row and one row per record, no index column. *)
Record Workbook := {
  sheet_name : string;
  header : list string;
  body : list (list (option cell))
}.

Definition to_excel (df : DataFrame) : Workbook :=
  {| sheet_name := "Screening Results"; header := columns df; body := rows df |}.

(** The artifact offered for download; the script builds it only inside
    [if sorted_results:]. *)
Definition export (sorted_results : list ScreeningResult) : option Workbook :=
  match sorted_results with
  | [] => None
  | _ :: _ => Some (to_excel (DataFrame_of (export_data sorted_results)))
  end.

End View.

(* ===================================================================== *)
(** * The outside world: parsers and the model provider *)
(* ===================================================================== *)

(** Outcome of a call that may raise: the value, or the exception rendered as
    the text the script interpolates into its messages ([{e}]). *)
Inductive result (A : Type) : Type :=
| Ok (a : A)
| Raise (e : string).
Arguments Ok {A} a.
Arguments Raise {A} e.

(** What the script obtains from its libraries.  The document parsers are
    functions of the bytes; the two calls to the model provider depend on, and
    change, the state [W] of the outside world. *)
Class Services (W : Type) := {
  (** [fitz.open(stream=..., filetype="pdf")] and [page.get_text()] for every
      page, in page order *)
  fitz_pages : list Byte.byte -> result (list string);
  (** [docx.Document(io.BytesIO(...)).paragraphs] and [para.text] of each *)
  docx_paragraphs : list Byte.byte -> result (list string);
  (** [bytes.decode("utf-8")] *)
  decode_utf8 : list Byte.byte -> result string;
  (** the OCR request of [get_file_text]: [generate_content([prompt, image])]
      and [response.text], given the MIME type and the image bytes *)
  gemini_ocr : string -> list Byte.byte -> W -> result string * W;
  (** the scoring request of [get_jd_match_from_gemini]: the prompt built from
      the job description and the resume text, [generate_content] under the
      response schema, and [json.loads(response.text)] *)
  gemini_score : string -> string -> W -> result CandidateAnalysis * W
}.

(* ===================================================================== *)
(** * Application state and the script monad *)
(* ===================================================================== *)

(** What a run of the script shows and which external calls it makes, in
    order. *)
Inductive Event :=
| EvTitle (body : string)
| EvMarkdown (body : string)
| EvDivider
| EvSubheader (body : string)
| EvError (body : string)
| EvWarning (body : string)
| EvInfo (body : string)
| EvSuccess (body : string)
| EvSpinner (text : string)
| EvTextArea (label : string)
| EvFileUploader (label : string)
| EvButton (label : string)
| EvTextInput (label : string)
| EvNumberInput (label : string)
| EvMetric (label value : string)
| EvDownloadButton (label : string) (data : View.Workbook) (file_name : string)
| EvConfigure (api_key : string)
| EvOcrCall (mime_type : string) (data : list Byte.byte)
| EvScorerCall (job_description resume_text : string).

Section App.
Context {W : Type} `{!Services W} {unicode : Unicode}.

(** References to Python list objects. *)
Definition ref := nat.

Record AppState := {
  heap : gmap nat (list ScreeningResult);  (* the list objects, by reference *)
  session_results : option ref;            (* st.session_state.results, if set *)
  trace : list Event;                      (* oldest first *)
  world : W
}.

Definition App (A : Type) : Type := AppState -> A * AppState.

Definition ret {A} (a : A) : App A := fun s => (a, s).

Definition bind {A B} (c : App A) (k : A -> App B) : App B :=
  fun s => let (a, s') := c s in k a s'.

Notation "'do' x <- c ; k" := (bind c (fun x => k))
  (at level 10, x name, c at level 100, k at level 200).
Notation "c >> k" := (bind c (fun _ => k))
  (at level 90, k at level 200, right associativity).

(** ** Primitive effects *)

Definition emit (e : Event) : App unit := fun s =>
  (tt, {| heap := heap s; session_results := session_results s;
          trace := trace s ++ [e]; world := world s |}).

Definition external {A} (call : W -> A * W) : App A := fun s =>
  let (a, w) := call (world s) in
  (a, {| heap := heap s; session_results := session_results s;
         trace := trace s; world := w |}).

(** A new list object holding [items] (a list display, a comprehension or
    the outcome of [sorted]). *)
Definition list_new (items : list ScreeningResult) : App ref := fun s =>
  let r := fresh (dom (heap s)) in
  (r, {| heap := <[r := items]> (heap s); session_results := session_results s;
         trace := trace s; world := world s |}).

(** [l.append(x)]: the object behind [l] changes in place. *)
Definition list_append (l : ref) (x : ScreeningResult) : App unit := fun s =>
  (tt, {| heap := alter (fun items => items ++ [x]) l (heap s);
          session_results := session_results s;
          trace := trace s; world := world s |}).

(** Reading the items of a list object (iteration, truth value, [len]). *)
Definition list_items (l : ref) : App (list ScreeningResult) := fun s =>
  (default [] (heap s !! l), s).

Definition session_get : App (option ref) := fun s => (session_results s, s).

(** [st.session_state.results = l]: the entry is rebound, no list changes. *)
Definition session_set (l : ref) : App unit := fun s =>
  (tt, {| heap := heap s; session_results := Some l;
          trace := trace s; world := world s |}).

(** [for x in xs: body(x)] *)
Fixpoint for_each {A} (xs : list A) (body : A -> App unit) : App unit :=
  match xs with
  | [] => ret tt
  | x :: xs' => body x >> for_each xs' body
  end.

(** ** Helper functions of the script *)

(** [uploaded_file.name.split('.')[-1].lower()] *)
Definition file_extension (uploaded_file : UploadedFile) : string :=
  str_lower (PyStr.last_item (PyStr.split_dot (file_name uploaded_file))).

(** [text = ""; for piece in pieces: text += piece] *)
Definition accumulate (pieces : list string) : string :=
  fold_left (fun text piece => text +:+ piece) pieces "".

(** The docx branch: [text += para.text + "\n"] for every paragraph. *)
Definition docx_text (paragraphs : list string) : string :=
  fold_left (fun text para => text +:+ (para +:+ nl)) paragraphs "".

Definition result_map {A B} (f : A -> B) (r : result A) : result B :=
  match r with Ok a => Ok (f a) | Raise e => Raise e end.

(** The body of the [try] in [get_file_text]; [text] starts as [""] and an
    extension outside the four branches leaves it so. *)
Definition read_text (uploaded_file : UploadedFile) : App (result string) :=
  let file_extension := file_extension uploaded_file in
  if bool_decide (file_extension = "pdf") then
    ret (result_map accumulate (fitz_pages (file_data uploaded_file)))
  else if bool_decide (file_extension = "docx") then
    ret (result_map docx_text (docx_paragraphs (file_data uploaded_file)))
  else if bool_decide (file_extension = "txt") then
    ret (decode_utf8 (file_data uploaded_file))
  else if bool_decide (file_extension ∈ ["png"; "jpg"; "jpeg"]) then
    emit (EvOcrCall (file_type uploaded_file) (file_data uploaded_file)) >>
    external (gemini_ocr (file_type uploaded_file) (file_data uploaded_file))
  else
    ret (Ok "").

(** [get_file_text]: [None] after an exception (reported with [st.error]),
    the text otherwise. *)
Definition get_file_text (uploaded_file : UploadedFile) : App (option string) :=
  do r <- read_text uploaded_file;
  match r with
  | Raise e =>
      emit (EvError ("Error reading " +:+ file_name uploaded_file +:+ ": " +:+ e)) >>
      ret None
  | Ok text => ret (Some text)
  end.

(** [get_jd_match_from_gemini]: [None] after an exception, the decoded dict
    otherwise. *)
Definition get_jd_match_from_gemini (job_description resume_text : string)
  : App (option CandidateAnalysis) :=
  emit (EvScorerCall job_description resume_text) >>
  do r <- external (gemini_score job_description resume_text);
  match r with
  | Raise e =>
      emit (EvError ("An error occurred with the AI model: " +:+ e)) >>
      ret None
  | Ok a => ret (Some a)
  end.

(** ** The script *)

(** The current value of every input widget, and the secrets. *)
Record Inputs := {
  secrets : gmap string string;
  job_description : string;
  uploaded_files : list UploadedFile;
  evaluate_clicked : bool;
  target_location : string;
  min_score : Z
}.

(** The body of the loop over the uploaded files.  [if resume_text:] and
    [if analysis:] test truth values: [None], the empty string and the empty
    dict all take the [else] branch. *)
Definition process_file (job_description : string) (new_results : ref)
           (file : UploadedFile) : App unit :=
  emit (EvInfo ("Processing: " +:+ file_name file)) >>
  do resume_text <- get_file_text file;
  let could_not_extract := emit (EvWarning ("Could not extract text from: " +:+ file_name file)) in
  let could_not_analyse := emit (EvError ("Could not get AI analysis for: " +:+ file_name file)) in
  match resume_text with
  | Some text =>
      if PyStr.truthy text then
        do analysis <- get_jd_match_from_gemini job_description text;
        match analysis with
        | Some a =>
            if analysis_truthy a then
              list_append new_results {| filename := file_name file; analysis := a |} >>
              emit (EvSuccess ("Successfully evaluated: " +:+ file_name file))
            else could_not_analyse
        | None => could_not_analyse
        end
      else could_not_extract
  | None => could_not_extract
  end.

(** The block under [if st.button("Evaluate Resumes", ...)]. *)
Definition evaluate_resumes (job_description : string)
           (uploaded_files : list UploadedFile) : App unit :=
  if PyStr.truthy job_description && negb (bool_decide (uploaded_files = [])) then
    emit (EvSpinner ("Evaluating " +:+ pretty (length uploaded_files) +:+ " resume(s)...")) >>
    do new_results <- list_new [];
    for_each uploaded_files (process_file job_description new_results) >>
    session_set new_results
  else
    emit (EvWarning "Please provide a job description and upload at least one resume.").

(** ** Filtering and display *)

Definition keyword_tag (kw : string) : string :=
  "<span style='background-color:#E0E0E0; color:#333; border-radius:5px; padding: 2px 8px; margin: 2px;'>"
  +:+ kw +:+ "</span>".

(** The card rendered for one displayed result (the container and the
    columns only lay the elements out). *)
Definition show_result (result : ScreeningResult) : App unit :=
  let analysis_data := analysis result in
  let score := get (score analysis_data) 0 in
  let location := get (location analysis_data) "Not Found" in
  emit (EvMarkdown ("**" +:+ filename result +:+ "**")) >>
  emit (EvMarkdown ("📍 **Location:** " +:+ location)) >>
  emit (EvMetric "Match Score" (pretty score +:+ "%")) >>
  emit (EvMarkdown ("**Justification:** *" +:+ get (justification analysis_data) "N/A" +:+ "*")) >>
  let keywords := get (matching_keywords analysis_data) [] in
  if bool_decide (keywords = []) then ret tt
  else
    emit (EvMarkdown "**Matching Keywords Found:**") >>
    emit (EvMarkdown (accumulate (map keyword_tag keywords))).

(** The block under [if sorted_results:], with its [else]: the download
    button for the exported workbook, the count and one card per result, or
    the no-match warning. *)
Definition show_display (sorted_results : list ScreeningResult) : App unit :=
  if negb (bool_decide (sorted_results = [])) then
    emit (EvDownloadButton "📥 Download Results as Excel"
            (View.to_excel (View.DataFrame_of (View.export_data sorted_results)))
            "resume_screening_results.xlsx") >>
    emit EvDivider >>
    emit (EvSuccess ("Displaying " +:+ pretty (length sorted_results)
                     +:+ " matching candidate(s).")) >>
    for_each sorted_results show_result
  else
    emit (EvWarning "No resumes match your current filter criteria.").

(** The block under [if st.session_state.results:].  [filtered_results]
    starts as an alias of the session's list; each comprehension and
    [sorted] build a new list object. *)
Definition filter_and_display (results : ref) (inp : Inputs) : App unit :=
  emit (EvMarkdown "#### Filter Your Results") >>
  emit (EvTextInput "Filter by Location") >>
  emit (EvNumberInput "Minimum Match Score") >>
  let filtered_results := results in
  do filtered_results <-
    (if PyStr.truthy (target_location inp) then
       do items <- list_items filtered_results;
       list_new (List.filter (View.location_matches (target_location inp)) items)
     else ret filtered_results);
  do items <- list_items filtered_results;
  do filtered_results <- list_new (List.filter (View.score_passes (min_score inp)) items);
  do items <- list_items filtered_results;
  do sorted_results <- list_new (View.sorted View.sort_key items true);
  do displayed <- list_items sorted_results;
  show_display displayed.

(** The part below the sidebar.  The session entry is set by then
    ([init_session] runs first); without it there is nothing to read. *)
Definition screening_evaluation (inp : Inputs) : App unit :=
  emit (EvSubheader "3. Screening Evaluation") >>
  do results <- session_get;
  match results with
  | Some results =>
      do items <- list_items results;
      if negb (bool_decide (items = [])) then filter_and_display results inp
      else emit (EvInfo "Your evaluation results will appear here after you upload resumes and click 'Evaluate'.")
  | None => ret tt
  end.

(** ** The whole script, top to bottom *)

Inductive Status := Completed | Stopped.

(** [if 'results' not in st.session_state: st.session_state.results = []] *)
Definition init_session : App unit :=
  do results <- session_get;
  match results with
  | Some _ => ret tt
  | None => do l <- list_new []; session_set l
  end.

(** The block under [with st.sidebar:]. *)
Definition sidebar (inp : Inputs) : App unit :=
  emit (EvSubheader "1. Enter Details") >>
  emit (EvTextArea "Paste the Job Description") >>
  emit (EvSubheader "2. Upload Resumes") >>
  emit (EvFileUploader "Choose resume files") >>
  emit (EvButton "Evaluate Resumes") >>
  if evaluate_clicked inp
  then evaluate_resumes (job_description inp) (uploaded_files inp)
  else ret tt.

(** One run of the script for the inputs [inp]; [st.stop()] ends the run with
    [Stopped], before any input widget is declared. *)
Definition script (inp : Inputs) : App Status :=
  emit (EvTitle "📄 AI Resume Screener") >>
  emit (EvMarkdown "Evaluate multiple resumes against a job description to find the best candidates.") >>
  emit EvDivider >>
  init_session >>
  match secrets inp !! "GOOGLE_API_KEY" with
  | None =>
      emit (EvError "🚨 **API Key Not Found!** Please add your GOOGLE_API_KEY to the secrets.toml file.") >>
      ret Stopped
  | Some api_key =>
      emit (EvConfigure api_key) >>
      sidebar inp >>
      screening_evaluation inp >>
      ret Completed
  end.

(** The ResultSet of a state: the items of the list the session entry
    refers to (no entry yet: no results). *)
Definition result_set (s : AppState) : list ScreeningResult :=
  match session_results s with
  | Some l => default [] (heap s !! l)
  | None => []
  end.

(** The events a computation added to the trace. *)
Definition new_events (before after : AppState) : list Event :=
  drop (length (trace before)) (trace after).

End App.

(* ===================================================================== *)
(** * Specification-side notions *)
(* ===================================================================== *)

(** What the properties below speak of: the wording of the specification next
    to the model of the code, and the judgements on states and traces. *)

Section Notions.
Context {unicode : Unicode}.

(** Two characters are the same letter up to case: equal, or an ASCII capital
    and its small letter (32 further on). *)
Definition same_letter (c d : ascii) : bool :=
  let n := nat_of_ascii c in
  let m := nat_of_ascii d in
  (n =? m)%nat
  || ((65 <=? n) && (n <=? 90) && (m =? n + 32))%nat
  || ((65 <=? m) && (m <=? 90) && (n =? m + 32))%nat.

(** Two strings are equal up to the case of their ASCII letters: the same
    length, and letter for letter the same up to case. *)
Fixpoint equal_ignoring_case (s t : string) : bool :=
  match s, t with
  | EmptyString, EmptyString => true
  | String c s', String d t' => same_letter c d && equal_ignoring_case s' t'
  | _, _ => false
  end.



Definition score_of (r : ScreeningResult) : Z := get (score (analysis r)) 0.


(** [a] stands at some position of [l] and [b] at a later one. *)
Definition occurs_before {A} (a b : A) (l : list A) : Prop :=
  exists l1 l2 l3, l = l1 ++ a :: l2 ++ b :: l3.

(** The columns the specification names, in its order. *)
Definition export_columns : list string :=
  ["Name"; "Email"; "Phone"; "Score"; "Location"; "Filename"].

(** The row the specification prescribes for a displayed result: the
    analysis fields, a missing string field as "N/A", a missing score as 0. *)
Definition expected_row (r : ScreeningResult) : list (option View.cell) :=
  let a := analysis r in
  [ Some (View.CStr (match name a with Some s => s | None => "N/A" end));
    Some (View.CStr (match email a with Some s => s | None => "N/A" end));
    Some (View.CStr (match phone a with Some s => s | None => "N/A" end));
    Some (View.CNum (match score a with Some z => z | None => 0 end));
    Some (View.CStr (match location a with Some s => s | None => "N/A" end));
    Some (View.CStr (filename r)) ].

(** Successive runs of the script, one per interaction of the operator. *)
Definition reruns {W} `{!Services W} (inputs : list Inputs) (s : AppState) : AppState :=
  fold_left (fun s inp => snd (script inp s)) inputs s.

(** Every list object of [s] is still there in [s'], with the same items. *)
Definition lists_kept {W} (s s' : @AppState W) : Prop :=
  forall l, is_Some (heap s !! l) -> heap s' !! l = heap s !! l.

(** [s'] differs from [s] by new list objects and new events at most. *)
Definition read_only {W} (s s' : @AppState W) : Prop :=
  lists_kept s s'
  /\ session_results s' = session_results s
  /\ world s' = world s
  /\ exists evs, trace s' = trace s ++ evs.

(** [s'] differs from [s] by events that satisfy [Q], and by the world. *)
Definition adds_events {W} (Q : Event -> Prop) (s s' : @AppState W) : Prop :=
  heap s' = heap s
  /\ session_results s' = session_results s
  /\ exists evs, trace s' = trace s ++ evs /\ Forall Q evs.

(** The session entry, when set, refers to a list object that exists. *)
Definition session_ok {W} (s : @AppState W) : Prop :=
  forall l, session_results s = Some l -> is_Some (heap s !! l).

(** From a well-formed state: the session entry, once set, still refers to
    the same list object, every list object keeps its items, and the
    ResultSet is the same. *)
Definition results_untouched {W} (s s' : @AppState W) : Prop :=
  session_ok s ->
  session_ok s'
  /\ lists_kept s s'
  /\ result_set s' = result_set s
  /\ forall l, session_results s = Some l -> session_results s' = Some l.

(** The elements through which the operator can act. *)
Definition is_input_widget (e : Event) : Prop :=
  match e with
  | EvTextArea _ | EvFileUploader _ | EvButton _ | EvTextInput _
  | EvNumberInput _ | EvDownloadButton _ _ _ => True
  | _ => False
  end.

(** A call to the model provider. *)
Definition is_external_call (e : Event) : Prop :=
  match e with
  | EvOcrCall _ _ | EvScorerCall _ _ => True
  | _ => False
  end.

(** What text extraction may add to the trace: an OCR request, an error
    report. *)
Definition extraction_event (e : Event) : Prop :=
  match e with
  | EvOcrCall _ _ | EvError _ => True
  | _ => False
  end.

(** What one call of the scorer may add to the trace: the request for this
    job description and this text, an error report. *)
Definition scorer_event (job_description resume_text : string) (e : Event) : Prop :=
  match e with
  | EvScorerCall j t => j = job_description /\ t = resume_text
  | EvError _ => True
  | _ => False
  end.

Definition is_scorer_call (e : Event) : Prop :=
  match e with EvScorerCall _ _ => True | _ => False end.

(** The three messages with which the loop closes the turn of a file. *)
Definition could_not_extract (f : UploadedFile) : Event :=
  EvWarning ("Could not extract text from: " +:+ file_name f).
Definition could_not_analyse (f : UploadedFile) : Event :=
  EvError ("Could not get AI analysis for: " +:+ file_name f).
Definition successfully_evaluated (f : UploadedFile) : Event :=
  EvSuccess ("Successfully evaluated: " +:+ file_name f).

(** The state in which the extractor runs for [f] when the loop reaches [f]
    in state [s], and what the extractor returns there. *)
Definition at_extraction {W} (f : UploadedFile) (s : @AppState W) : @AppState W :=
  snd (emit (EvInfo ("Processing: " +:+ file_name f)) s).

Definition extraction {W} `{!Services W} (f : UploadedFile) (s : @AppState W)
  : option string * @AppState W :=
  get_file_text f (at_extraction f s).

(** What the turn of one file may add to the new ResultSet: nothing, or one
    result that carries the file's name and an analysis which the provider
    returned for a non-empty text extracted from this file. *)
Definition contributes {W} `{!Services W} (jd : string) (f : UploadedFile)
           (c : list ScreeningResult) : Prop :=
  c = []
  \/ exists (text : string) (a : CandidateAnalysis) (s1 : @AppState W) (w : W),
      c = [{| filename := file_name f; analysis := a |}]
      /\ fst (get_file_text f s1) = Some text
      /\ PyStr.truthy text = true
      /\ fst (gemini_score jd text w) = Ok a
      /\ analysis_truthy a = true.

(** Every request to the scorer during a run over [files] is for the job
    description of the run and for a non-empty text extracted from one of the
    files. *)
Definition scorer_call_ok {W} `{!Services W} (jd : string) (files : list UploadedFile)
           (e : Event) : Prop :=
  match e with
  | EvScorerCall j t =>
      j = jd /\ PyStr.truthy t = true
      /\ exists f (s1 : @AppState W), In f files /\ fst (get_file_text f s1) = Some t
  | _ => True
  end.

(** The extensions for which [get_file_text] has a branch. *)
Definition supported_extensions : list string :=
  ["pdf"; "docx"; "txt"; "png"; "jpg"; "jpeg"].

(** The text of a docx file as the script builds it: every paragraph followed
    by a newline. *)
Fixpoint newline_terminated (paragraphs : list string) : string :=
  match paragraphs with
  | [] => ""
  | p :: ps => p +:+ nl +:+ newline_terminated ps
  end.

(** The validation message of the evaluate block. *)
Definition validation_message : Event :=
  EvWarning "Please provide a job description and upload at least one resume.".

(** What a run without the API key shows. *)
Definition missing_key_screen : list Event :=
  [ EvTitle "📄 AI Resume Screener";
    EvMarkdown "Evaluate multiple resumes against a job description to find the best candidates.";
    EvDivider;
    EvError "🚨 **API Key Not Found!** Please add your GOOGLE_API_KEY to the secrets.toml file." ].

(** A computation relates every state to the state it leaves. *)
Definition keeps {W A} (P : @AppState W -> @AppState W -> Prop) (c : App A) : Prop :=
  forall s, P s (snd (c s)).

(** No character of [s] is a dot. *)
Fixpoint dotless (s : string) : bool :=
  match s with
  | EmptyString => true
  | String c s' => negb (Ascii.eqb c "."%char) && dotless s'
  end.

(** The file object for a name; the extension is read off the name alone. *)
Definition named (file_name : string) (file_type : string) (data : list Byte.byte)
  : UploadedFile :=
  {| file_name := file_name; file_type := file_type; file_data := data |}.

(** The extensions that go to OCR. *)
Definition image_extensions : list string := ["png"; "jpg"; "jpeg"].

(** The request [get_file_text] sends for a file: the OCR request for an
    image, none otherwise. *)
Definition ocr_request (f : UploadedFile) : list Event :=
  if bool_decide (file_extension f ∈ image_extensions)
  then [EvOcrCall (file_type f) (file_data f)] else [].

(** The reports of the two helper functions, and the announcement of a file. *)
Definition read_error (f : UploadedFile) (e : string) : Event :=
  EvError ("Error reading " +:+ file_name f +:+ ": " +:+ e).
Definition model_error (e : string) : Event :=
  EvError ("An error occurred with the AI model: " +:+ e).
Definition processing (f : UploadedFile) : Event :=
  EvInfo ("Processing: " +:+ file_name f).

Definition is_ocr_call (e : Event) : Prop :=
  match e with EvOcrCall _ _ => True | _ => False end.

(** Tests on events, for counting in a trace. *)
Definition external_call_b (e : Event) : bool :=
  match e with EvOcrCall _ _ | EvScorerCall _ _ => true | _ => false end.
Definition scorer_call_b (e : Event) : bool :=
  match e with EvScorerCall _ _ => true | _ => false end.
Definition ocr_call_b (e : Event) : bool :=
  match e with EvOcrCall _ _ => true | _ => false end.
Definition info_b (e : Event) : bool :=
  match e with EvInfo _ => true | _ => false end.

(** The events of the turn of one file, as the loop body can produce them:
    the announcement, the OCR request if the file is an image, then one of
    three endings. *)
Inductive turn_events (jd : string) (f : UploadedFile) : list Event -> Prop :=
| turn_without_text (report : list Event) :
    report = [] \/ (exists e, report = [read_error f e]) ->
    turn_events jd f
      (processing f :: ocr_request f ++ report ++ [could_not_extract f])
| turn_without_analysis (text : string) (report : list Event) :
    report = [] \/ (exists e, report = [model_error e]) ->
    turn_events jd f
      (processing f :: ocr_request f
                    ++ EvScorerCall jd text :: report ++ [could_not_analyse f])
| turn_scored (text : string) :
    turn_events jd f
      (processing f :: ocr_request f
                    ++ [EvScorerCall jd text; successfully_evaluated f]).

(** The calls of one stretch of the log, the turn of file [f]: the stretch
    opens with the announcement of [f] and holds no other announcement, its
    OCR requests are the one of [f] if [f] is an image and none otherwise, and
    it holds at most one scorer request. *)
Definition turn_calls (f : UploadedFile) (turn : list Event) : Prop :=
  head turn = Some (processing f)
  /\ List.filter info_b turn = [processing f]
  /\ List.filter ocr_call_b turn = ocr_request f
  /\ (length (List.filter scorer_call_b turn) <= 1)%nat.

(** [s'] differs from [s] without any request to the provider: the world is
    the same and no added event is an external call. *)
Definition no_external_calls {W} (s s' : @AppState W) : Prop :=
  world s' = world s
  /\ exists evs, trace s' = trace s ++ evs /\ Forall (fun e => ~ is_external_call e) evs.

(** From a well-formed state with the session entry set, the state stays so
    and every list object that existed keeps its items. *)
Definition session_kept {W} (s s' : @AppState W) : Prop :=
  session_ok s /\ is_Some (session_results s) ->
  (session_ok s' /\ is_Some (session_results s')) /\ lists_kept s s'.

(** What the part below the sidebar renders first. *)
Definition evaluation_header : Event := EvSubheader "3. Screening Evaluation".
Definition no_results_yet : Event :=
  EvInfo "Your evaluation results will appear here after you upload resumes and click 'Evaluate'.".
Definition no_matches : Event :=
  EvWarning "No resumes match your current filter criteria.".
Definition filter_controls : list Event :=
  [ EvMarkdown "#### Filter Your Results";
    EvTextInput "Filter by Location";
    EvNumberInput "Minimum Match Score" ].
Definition download_header (displayed : list ScreeningResult) : list Event :=
  [ EvDownloadButton "📥 Download Results as Excel"
      (View.to_excel (View.DataFrame_of (View.export_data displayed)))
      "resume_screening_results.xlsx";
    EvDivider;
    EvSuccess ("Displaying " +:+ pretty (length displayed) +:+ " matching candidate(s).") ].

(** What a run with the API key renders before the sidebar acts: the page
    header, the configuration of the provider and the five elements of the
    sidebar. *)
Definition page_header : list Event :=
  [ EvTitle "📄 AI Resume Screener";
    EvMarkdown "Evaluate multiple resumes against a job description to find the best candidates.";
    EvDivider ].
Definition sidebar_widgets : list Event :=
  [ EvSubheader "1. Enter Details";
    EvTextArea "Paste the Job Description";
    EvSubheader "2. Upload Resumes";
    EvFileUploader "Choose resume files";
    EvButton "Evaluate Resumes" ].

(** The state in which the sidebar block decides on the click: after the
    page header, the initialisation of the session, the configuration with
    [api_key] and the sidebar widgets. *)
Definition at_button {W} `{!Services W} (api_key : string) (s : @AppState W) : @AppState W :=
  let s1 := snd (for_each page_header emit s) in
  let s2 := snd (init_session s1) in
  let s3 := snd (emit (EvConfigure api_key) s2) in
  snd (for_each sidebar_widgets emit s3).

End Notions.

(* ===================================================================== *)
(** * A canned provider, sample files and sample states *)
(* ===================================================================== *)

(** The analysis the canned scorer returns for a text. *)
Definition canned_analysis (text : string) : CandidateAnalysis :=
  {| name := Some "Not Found"; email := Some "Not Found"; phone := Some "Not Found";
     score := Some (Z.of_nat (String.length text));
     justification := Some "Matches the job description.";
     location := Some "Austin, TX";
     matching_keywords := Some ["Python"] |}.

(** A stand-in for the libraries and the provider: an empty pdf does not
    open, the paragraphs of a docx are the words of its bytes, every byte
    string decodes, OCR reads a fixed text, and the scorer refuses a text that
    mentions a quota.  The world counts the requests to the provider. *)
Instance canned_services : Services nat := {|
  fitz_pages data :=
    match data with
    | [] => Raise "cannot open empty document"
    | _ :: _ => Ok [String.string_of_list_byte data]
    end;
  docx_paragraphs data := Ok (String.words (String.string_of_list_byte data));
  decode_utf8 data := Ok (String.string_of_list_byte data);
  gemini_ocr mime data w := (Ok "scanned resume", S w);
  gemini_score jd text w :=
    (if PyStr.contains "quota" text then Raise "429 quota exceeded"
     else Ok (canned_analysis text), S w)
|}.

Definition sample_file (file_name content : string) : UploadedFile :=
  {| file_name := file_name; file_type := "application/octet-stream";
     file_data := String.list_byte_of_string content |}.

Definition alice_txt : UploadedFile := sample_file "alice.txt" "Python developer".
Definition quota_txt : UploadedFile := sample_file "quota.txt" "quota".
Definition blank_txt : UploadedFile := sample_file "blank.txt" "".
Definition broken_pdf : UploadedFile := sample_file "broken.PDF" "".
Definition table_csv : UploadedFile := sample_file "table.csv" "a,b,c".
Definition jane_docx : UploadedFile := sample_file "jane.docx" "Jane Doe".

Definition sample_jd : string := "Seeking a Python developer".
Definition sample_files : list UploadedFile := [broken_pdf; quota_txt; table_csv; alice_txt].

(** A session that holds the outcome of an earlier run. *)
Definition earlier_result : ScreeningResult :=
  {| filename := "old.pdf"; analysis := canned_analysis "old" |}.

Definition sample_state : @AppState nat :=
  {| heap := {[ 0%nat := [earlier_result] ]}; session_results := Some 0%nat;
     trace := []; world := 0%nat |}.

Definition sample_inputs (clicked : bool) (target : string) (minimum : Z) : Inputs :=
  {| secrets := {[ "GOOGLE_API_KEY" := "key" ]};
     job_description := ""; uploaded_files := [];
     evaluate_clicked := clicked; target_location := target; min_score := minimum |}.

(** The ResultSet of the scenarios of the specification. *)
Definition scenario_result (file : string) (points : Z) (place : string) : ScreeningResult :=
  {| filename := file;
     analysis := {| name := None; email := None; phone := None; score := Some points;
                    justification := None; location := Some place;
                    matching_keywords := None |} |}.

Definition scenario_A : ScreeningResult := scenario_result "A" 90 "Austin, TX".
Definition scenario_B : ScreeningResult := scenario_result "B" 60 "Hyderabad".
Definition scenario_C : ScreeningResult := scenario_result "C" 90 "Remote".
Definition scenario_results : list ScreeningResult := [scenario_A; scenario_B; scenario_C].


(** More sample files and inputs: a pdf that opens, a scanned image, a result
    without any field, and the inputs of a run with the key. *)
Definition cv_pdf : UploadedFile := sample_file "cv.pdf" "Jane Doe, Python".
Definition scan_png : UploadedFile := sample_file "scan.PNG" "pixels".
Definition textless_files : list UploadedFile := [blank_txt; table_csv; broken_pdf].

Definition bare_result : ScreeningResult :=
  {| filename := "bare.txt";
     analysis := {| name := None; email := None; phone := None; score := None;
                    justification := None; location := None;
                    matching_keywords := None |} |}.

Definition evaluation_inputs : Inputs :=
  {| secrets := {[ "GOOGLE_API_KEY" := "key" ]};
     job_description := sample_jd; uploaded_files := sample_files;
     evaluate_clicked := true; target_location := ""; min_score := 0 |}.

(* ===================================================================== *)
(** * Properties of the string built-ins *)
(* ===================================================================== *)

Section TextFacts.
Context {unicode : Unicode}.

Lemma append_cons (c : ascii) (s t : string) : String c s +:+ t = String c (s +:+ t).
Proof. reflexivity. Qed.

Lemma append_empty_l (s : string) : "" +:+ s = s.
Proof. reflexivity. Qed.

Lemma append_empty_r (s : string) : s +:+ "" = s.
Proof. induction s as [|c s IH]; [reflexivity|]. rewrite append_cons. by f_equal. Qed.

Lemma append_assoc (s t u : string) : (s +:+ t) +:+ u = s +:+ (t +:+ u).
Proof. induction s as [|c s IH]; [reflexivity|]. rewrite !append_cons. by f_equal. Qed.





Lemma truthy_false (s : string) : PyStr.truthy s = false <-> s = "".
Proof. by destruct s. Qed.

(* ===================================================================== *)
(** * C1: the filter *)
(* ===================================================================== *)

Lemma ascii_only_app (s t : string) :
  PyStr.ascii_only (s +:+ t) = PyStr.ascii_only s && PyStr.ascii_only t.
Proof.
  induction s as [|c s IH]; [done|].
  rewrite append_cons. simpl. by rewrite IH, andb_assoc.
Qed.

Lemma nat_of_ascii_inj (c d : ascii) : nat_of_ascii c = nat_of_ascii d -> c = d.
Proof.
  intros H. by rewrite <- (ascii_nat_embedding c), H, ascii_nat_embedding.
Qed.

Lemma nat_of_lower_ascii (c : ascii) :
  nat_of_ascii (PyStr.lower_ascii c)
  = (if ((65 <=? nat_of_ascii c) && (nat_of_ascii c <=? 90))%nat
     then nat_of_ascii c + 32 else nat_of_ascii c)%nat.
Proof.
  unfold PyStr.lower_ascii. cbv zeta.
  destruct ((65 <=? nat_of_ascii c) && (nat_of_ascii c <=? 90))%nat eqn:Hup; [|done].
  apply andb_true_iff in Hup as [_ Hup%Nat.leb_le].
  apply nat_ascii_embedding. lia.
Qed.

(** Two characters have the same lower case exactly when they are the same
    letter up to case. *)
Lemma lower_ascii_same_letter (c d : ascii) :
  PyStr.lower_ascii c = PyStr.lower_ascii d <-> same_letter c d = true.
Proof.
  assert (Hcodes : PyStr.lower_ascii c = PyStr.lower_ascii d
                   <-> nat_of_ascii (PyStr.lower_ascii c) = nat_of_ascii (PyStr.lower_ascii d)).
  { split; [by intros -> | apply nat_of_ascii_inj]. }
  rewrite Hcodes, !nat_of_lower_ascii. unfold same_letter. cbv zeta.
  generalize (nat_of_ascii c) (nat_of_ascii d). intros n m.
  destruct (Nat.leb_spec 65 n), (Nat.leb_spec n 90), (Nat.leb_spec 65 m),
    (Nat.leb_spec m 90), (Nat.eqb_spec n m), (Nat.eqb_spec m (n + 32)),
    (Nat.eqb_spec n (m + 32)); simpl; split; intros; done || lia.
Qed.

Lemma ascii_lower_eq_iff (s t : string) :
  PyStr.ascii_lower s = PyStr.ascii_lower t <-> equal_ignoring_case s t = true.
Proof.
  revert t. induction s as [|c s IH]; intros [|d t]; simpl; try done.
  rewrite andb_true_iff, <- IH, <- lower_ascii_same_letter. split.
  - by intros [= -> ->].
  - by intros [-> ->].
Qed.

Lemma equal_ignoring_case_ascii_only (s t : string) :
  equal_ignoring_case s t = true -> PyStr.ascii_only t = true -> PyStr.ascii_only s = true.
Proof.
  revert t. induction s as [|c s IH]; intros [|d t]; simpl; try done.
  rewrite !andb_true_iff. intros [Hcd Hst] [Hd Ht]. split; [|by apply (IH t)].
  apply Nat.ltb_lt in Hd. apply Nat.ltb_lt. revert Hcd. unfold same_letter. cbv zeta.
  generalize dependent (nat_of_ascii d). generalize (nat_of_ascii c). intros n m Hm.
  destruct (Nat.leb_spec 65 n), (Nat.leb_spec n 90), (Nat.leb_spec 65 m),
    (Nat.leb_spec m 90), (Nat.eqb_spec n m), (Nat.eqb_spec m (n + 32)),
    (Nat.eqb_spec n (m + 32)); simpl; intros; done || lia.
Qed.



Lemma score_passes_spec (min_score : Z) (r : ScreeningResult) :
  View.score_passes min_score r = true <-> min_score <= score_of r.
Proof. unfold View.score_passes. fold (score_of r). apply Z.leb_le. Qed.



(* ===================================================================== *)
(** * C2: the sort *)
(* ===================================================================== *)

Section SortFacts.
Context {A : Type} (key : A -> Z).

Lemma insert_stable_perm (x : A) (l : list A) :
  Permutation (View.insert_stable key x l) (x :: l).
Proof.
  induction l as [|y l IH]; simpl; [reflexivity|].
  destruct (key x <=? key y); [reflexivity|].
  rewrite IH. apply perm_swap.
Qed.

Lemma stable_sort_perm (l : list A) : Permutation (View.stable_sort key l) l.
Proof.
  induction l as [|x l IH]; simpl; [reflexivity|].
  rewrite insert_stable_perm. by constructor.
Qed.

Lemma insert_stable_sorted (x : A) (l : list A) :
  StronglySorted (fun a b => key a <= key b) l ->
  StronglySorted (fun a b => key a <= key b) (View.insert_stable key x l).
Proof.
  induction 1 as [|y l Hl IH Hy]; simpl; [repeat constructor|].
  destruct (key x <=? key y) eqn:Hxy.
  - apply Z.leb_le in Hxy. constructor; [by constructor|].
    constructor; [done|]. eapply Forall_impl; [exact Hy|]. simpl. intros; lia.
  - apply Z.leb_gt in Hxy. constructor; [done|].
    eapply Permutation_Forall; [symmetry; apply insert_stable_perm|].
    constructor; [lia | done].
Qed.

Lemma stable_sort_sorted (l : list A) :
  StronglySorted (fun a b => key a <= key b) (View.stable_sort key l).
Proof.
  induction l as [|x l IH]; simpl; [constructor|]. by apply insert_stable_sorted.
Qed.

(** Insertion never moves [x] across an element with the same key. *)
Lemma insert_stable_filter (k : Z) (x : A) (l : list A) :
  List.filter (fun y => key y =? k) (View.insert_stable key x l)
  = List.filter (fun y => key y =? k) (x :: l).
Proof.
  induction l as [|y l IH]; [reflexivity|].
  cbn [View.insert_stable]. destruct (key x <=? key y) eqn:Hxy; [reflexivity|].
  apply Z.leb_gt in Hxy. cbn [List.filter] in *. rewrite IH.
  destruct (key x =? k) eqn:Hx, (key y =? k) eqn:Hy; try reflexivity.
  apply Z.eqb_eq in Hx, Hy. lia.
Qed.

Lemma stable_sort_filter (k : Z) (l : list A) :
  List.filter (fun y => key y =? k) (View.stable_sort key l)
  = List.filter (fun y => key y =? k) l.
Proof.
  induction l as [|x l IH]; [reflexivity|].
  cbn [View.stable_sort]. rewrite insert_stable_filter. cbn [List.filter].
  by rewrite IH.
Qed.

Lemma StronglySorted_snoc (R : A -> A -> Prop) (l : list A) (x : A) :
  StronglySorted R l -> Forall (fun y => R y x) l -> StronglySorted R (l ++ [x]).
Proof.
  induction 1 as [|y l Hl IH Hy]; intros Hx; simpl; [repeat constructor|].
  apply Forall_cons_1 in Hx as [Hyx Hx]. constructor; [by apply IH|].
  apply Forall_app; split; [done | by constructor].
Qed.

Lemma StronglySorted_rev (R : A -> A -> Prop) (l : list A) :
  StronglySorted R l -> StronglySorted (fun a b => R b a) (rev l).
Proof.
  induction 1 as [|y l Hl IH Hy]; simpl; [constructor|].
  apply StronglySorted_snoc; [done|]. by apply Forall_rev.
Qed.

(** [sorted(..., reverse=True)]: descending, a permutation, and stable. *)
Lemma sorted_reverse_spec (l : list A) :
  StronglySorted (fun a b => key b <= key a) (View.sorted key l true)
  /\ Permutation (View.sorted key l true) l
  /\ forall k, List.filter (fun y => key y =? k) (View.sorted key l true)
               = List.filter (fun y => key y =? k) l.
Proof.
  unfold View.sorted. split; [|split].
  - apply (StronglySorted_rev (fun a b => key a <= key b)), stable_sort_sorted.
  - rewrite <- Permutation_rev, stable_sort_perm. symmetry. apply Permutation_rev.
  - intros k. rewrite List.filter_rev, stable_sort_filter, List.filter_rev.
    apply rev_involutive.
Qed.

Lemma filter_eq_cons_inv (f : A -> bool) (l xs ys : list A) (a : A) :
  List.filter f l = xs ++ a :: ys ->
  exists l1 l2, l = l1 ++ a :: l2 /\ List.filter f l1 = xs /\ List.filter f l2 = ys.
Proof.
  revert xs. induction l as [|x l IH]; intros xs H; simpl in H.
  - by destruct xs.
  - destruct (f x) eqn:Hfx.
    + destruct xs as [|x' xs]; simpl in H; injection H as -> H.
      * exists [], l. by rewrite <- H.
      * destruct (IH _ H) as (l1 & l2 & -> & <- & <-).
        exists (x' :: l1), l2. simpl. by rewrite Hfx.
    + destruct (IH _ H) as (l1 & l2 & -> & <- & <-).
      exists (x :: l1), l2. simpl. by rewrite Hfx.
Qed.

Lemma occurs_before_filter (f : A -> bool) (a b : A) (l : list A) :
  occurs_before a b (List.filter f l) -> occurs_before a b l.
Proof.
  intros (x1 & x2 & x3 & H).
  apply filter_eq_cons_inv in H as (l1 & l23 & -> & _ & H).
  apply filter_eq_cons_inv in H as (l2 & l3 & -> & _ & _).
  by exists l1, l2, l3.
Qed.

Lemma occurs_before_into_filter (f : A -> bool) (a b : A) (l : list A) :
  f a = true -> f b = true ->
  occurs_before a b l -> occurs_before a b (List.filter f l).
Proof.
  intros Ha Hb (l1 & l2 & l3 & ->).
  exists (List.filter f l1), (List.filter f l2), (List.filter f l3).
  rewrite List.filter_app. simpl. rewrite Ha, List.filter_app. simpl. by rewrite Hb.
Qed.

Lemma sorted_reverse_stable (l : list A) (a b : A) :
  key a = key b ->
  occurs_before a b (View.sorted key l true) -> occurs_before a b l.
Proof.
  intros Hab Hbefore.
  destruct (sorted_reverse_spec l) as (_ & _ & Hfilter).
  apply (occurs_before_filter (fun y => key y =? key a)).
  rewrite <- Hfilter. apply occurs_before_into_filter; [apply Z.eqb_refl | | done].
  apply Z.eqb_eq. by symmetry.
Qed.

End SortFacts.

(** C2.  The displayed sequence is the filtered sequence rearranged into
    descending order of score, and the sort is stable: the results of any one
    score appear in the same order as in the filtered sequence, and two
    displayed results of equal score stand in the order they have in the
    filtered view, hence in the ResultSet. *)
Theorem C2_sort_descending_stable (results : list ScreeningResult)
        (locationSubstring : string) (minScore : Z) :
  let filtered := View.filtered_results results locationSubstring minScore in
  let displayed := View.sorted_results filtered in
  StronglySorted (fun a b => score_of b <= score_of a) displayed
  /\ Permutation displayed filtered
  /\ (forall k, List.filter (fun r => score_of r =? k) displayed
                = List.filter (fun r => score_of r =? k) filtered)
  /\ (forall a b, score_of a = score_of b ->
                  occurs_before a b displayed ->
                  occurs_before a b filtered /\ occurs_before a b results).
Proof.
  intros filtered displayed.
  destruct (sorted_reverse_spec View.sort_key filtered) as (Hsorted & Hperm & Hfilter).
  split; [exact Hsorted|]. split; [exact Hperm|]. split; [exact Hfilter|].
  intros a b Hab Hbefore.
  assert (Hf : occurs_before a b filtered)
    by (by apply (sorted_reverse_stable View.sort_key filtered a b)).
  split; [exact Hf|].
  unfold filtered, View.filtered_results in Hf.
  apply occurs_before_filter in Hf.
  destruct (PyStr.truthy locationSubstring); [by apply occurs_before_filter in Hf | done].
Qed.

(* ===================================================================== *)
(** * C4: the export *)
(* ===================================================================== *)

Lemma export_row_keys (r : ScreeningResult) : map fst (View.export_row r) = export_columns.
Proof. reflexivity. Qed.

Lemma export_row_cells (r : ScreeningResult) :
  map (View.record_lookup (View.export_row r)) export_columns = expected_row r.
Proof. destruct r as [fname [n e p s j l k]]. by destruct n, e, p, s, l. Qed.

(** Once the six columns are known, further export rows add none. *)
Lemma export_columns_stable (records : list ScreeningResult) :
  fold_left (fun seen r => View.add_new_keys seen (map fst r))
            (View.export_data records) export_columns = export_columns.
Proof.
  induction records as [|r records IH]; [reflexivity|].
  change (View.export_data (r :: records))
    with (View.export_row r :: View.export_data records).
  cbn [fold_left]. rewrite export_row_keys.
  change (View.add_new_keys export_columns export_columns) with export_columns.
  exact IH.
Qed.

Lemma DataFrame_of_export_data (r : ScreeningResult) (records : list ScreeningResult) :
  View.DataFrame_of (View.export_data (r :: records))
  = {| View.columns := export_columns;
       View.rows := map expected_row (r :: records) |}.
Proof.
  unfold View.DataFrame_of.
  assert (Hcols : fold_left (fun seen r => View.add_new_keys seen (map fst r))
                            (View.export_data (r :: records)) [] = export_columns).
  { change (View.export_data (r :: records))
      with (View.export_row r :: View.export_data records).
    cbn [fold_left]. rewrite export_row_keys.
    change (View.add_new_keys [] export_columns) with export_columns.
    apply export_columns_stable. }
  rewrite Hcols. f_equal. unfold View.export_data. rewrite map_map.
  apply map_ext. intros r'. apply export_row_cells.
Qed.

(** C4.  The workbook exported for a DisplaySet has exactly the columns Name,
    Email, Phone, Score, Location, Filename and exactly one row per displayed
    result, in display order; each row holds the analysis fields, with "N/A"
    for a missing string field and 0 for a missing score.  (For an empty
    DisplaySet the script offers no export at all.) *)
Theorem C4_export_rows_and_columns (displayed : list ScreeningResult) :
  match View.export displayed with
  | Some workbook =>
      View.header workbook = export_columns
      /\ length (View.body workbook) = length displayed
      /\ View.body workbook = map expected_row displayed
  | None => displayed = []
  end.
Proof.
  destruct displayed as [|r records]; [reflexivity|].
  unfold View.export. rewrite DataFrame_of_export_data. simpl.
  split; [reflexivity|]. split; [|reflexivity]. by rewrite length_map.
Qed.

(* ===================================================================== *)
(** * Further properties of the filter and the sort *)
(* ===================================================================== *)

Lemma filter_filter_andb {A} (f g : A -> bool) (l : list A) :
  List.filter f (List.filter g l) = List.filter (fun x => g x && f x) l.
Proof.
  induction l as [|x l IH]; [done|]. simpl.
  destruct (g x); simpl; [destruct (f x)|]; by rewrite IH.
Qed.

Lemma filter_sublist_impl {A} (f g : A -> bool) (l : list A) :
  (forall x, f x = true -> g x = true) ->
  sublist (List.filter f l) (List.filter g l).
Proof.
  intros Himpl. induction l as [|x l IH]; simpl; [constructor|].
  destruct (f x) eqn:Hf.
  - rewrite (Himpl x Hf). by constructor.
  - destruct (g x); [by constructor | done].
Qed.

(** The filter as one test per result. *)
Lemma filtered_results_as_filter (results : list ScreeningResult)
      (target : string) (minimum : Z) :
  View.filtered_results results target minimum
  = List.filter (fun r => (negb (PyStr.truthy target) || View.location_matches target r)
                          && View.score_passes minimum r) results.
Proof.
  unfold View.filtered_results. destruct (PyStr.truthy target); simpl.
  - apply filter_filter_andb.
  - done.
Qed.

(** X1.  Raising the minimum score, or adding a location filter, only removes
    results from the filtered view, and filtering a filtered view again with
    the same controls changes nothing. *)
Theorem filter_narrows_and_is_idempotent (results : list ScreeningResult)
        (target : string) (minimum minimum' : Z) :
  minimum <= minimum' ->
  sublist (View.filtered_results results target minimum')
          (View.filtered_results results target minimum)
  /\ sublist (View.filtered_results results target minimum)
             (View.filtered_results results "" minimum)
  /\ View.filtered_results (View.filtered_results results target minimum) target minimum
     = View.filtered_results results target minimum.
Proof.
  intros Hle. rewrite !filtered_results_as_filter. split; [|split].
  - apply filter_sublist_impl. intros r. rewrite !andb_true_iff.
    intros [Hloc Hscore]. split; [done|].
    apply score_passes_spec. apply score_passes_spec in Hscore. lia.
  - apply filter_sublist_impl. intros r. rewrite !andb_true_iff. by intros [_ Hscore].
  - rewrite filter_filter_andb. apply List.filter_ext. intros r.
    apply andb_diag.
Qed.

Lemma contains_in_empty (needle : string) :
  needle <> "" -> PyStr.contains needle "" = false.
Proof. by destruct needle. Qed.

(** X2.  A result whose analysis has no location is excluded by every
    non-empty location filter, whatever its score; a result whose analysis has
    no score counts as score 0, so it passes the score test exactly when the
    minimum is at most 0. *)
Theorem filter_on_missing_fields (results : list ScreeningResult)
        (target : string) (minimum : Z) (r : ScreeningResult) :
  (location (analysis r) = None -> target <> "" ->
   ~ In r (View.filtered_results results target minimum))
  /\ (score (analysis r) = None ->
      (View.score_passes minimum r = true <-> minimum <= 0)
      /\ (0 < minimum -> ~ In r (View.filtered_results results target minimum))).
Proof.
  split.
  - intros Hloc Htarget. rewrite filtered_results_as_filter, filter_In.
    intros [_ Hkeep]. apply andb_true_iff in Hkeep as [Hkeep _].
    assert (PyStr.truthy target = true) as Ht by (by destruct target).
    rewrite Ht in Hkeep. simpl in Hkeep.
    unfold View.location_matches in Hkeep. rewrite Hloc in Hkeep.
    change (get None "") with "" in Hkeep.
    rewrite (str_lower_ascii "" eq_refl) in Hkeep.
    change (PyStr.ascii_lower "") with "" in Hkeep.
    rewrite contains_in_empty in Hkeep; [done|].
    intros Hlow. by apply Htarget, str_lower_empty.
  - intros Hscore.
    assert (Hpass : View.score_passes minimum r = true <-> minimum <= 0).
    { unfold View.score_passes. rewrite Hscore. simpl. apply Z.leb_le. }
    split; [exact Hpass|].
    intros Hpos. rewrite filtered_results_as_filter, filter_In.
    intros [_ Hkeep]. apply andb_true_iff in Hkeep as [_ Hkeep].
    apply Hpass in Hkeep. lia.
Qed.

Section MoreSortFacts.
Context {A : Type} (key : A -> Z).

Lemma insert_stable_least (x : A) (l : list A) :
  Forall (fun y => key x <= key y) l -> View.insert_stable key x l = x :: l.
Proof.
  destruct 1 as [|y l Hy _]; simpl; [done|].
  by rewrite (proj2 (Z.leb_le _ _) Hy).
Qed.

Lemma stable_sort_sorted_id (l : list A) :
  StronglySorted (fun a b => key a <= key b) l -> View.stable_sort key l = l.
Proof.
  induction 1 as [|x l _ IH Hx]; simpl; [done|].
  rewrite IH. by apply insert_stable_least.
Qed.

(** A list that is already in descending order comes back as it is. *)
Lemma sorted_reverse_id (l : list A) :
  StronglySorted (fun a b => key b <= key a) l -> View.sorted key l true = l.
Proof.
  intros Hsorted. unfold View.sorted.
  rewrite stable_sort_sorted_id; [apply rev_involutive|].
  apply (StronglySorted_rev (fun a b => key b <= key a)), Hsorted.
Qed.

End MoreSortFacts.

(** X3.  Sorting the display again changes nothing, the sort keeps the number
    of results, and the first displayed result has the highest score of the
    filtered list. *)
Theorem sort_is_idempotent_best_first (filtered : list ScreeningResult) :
  View.sorted_results (View.sorted_results filtered) = View.sorted_results filtered
  /\ length (View.sorted_results filtered) = length filtered
  /\ match View.sorted_results filtered with
     | [] => filtered = []
     | best :: _ => forall r, In r filtered -> score_of r <= score_of best
     end.
Proof.
  destruct (sorted_reverse_spec View.sort_key filtered) as (Hsorted & Hperm & _).
  fold (View.sorted_results filtered) in Hsorted, Hperm. split; [|split].
  - by apply (sorted_reverse_id View.sort_key).
  - by apply Permutation_length.
  - destruct (View.sorted_results filtered) as [|best rest] eqn:Hd.
    + by apply Permutation_nil in Hperm.
    + intros r Hr. apply StronglySorted_inv in Hsorted as [_ Hbest].
      apply (Permutation_in _ (Permutation_sym Hperm)) in Hr as [<- | Hr].
      * reflexivity.
      * rewrite List.Forall_forall in Hbest. by apply Hbest.
Qed.

(* ===================================================================== *)
(** * The extension of a file name *)
(* ===================================================================== *)

Lemma rev_app_append (s t : string) : String.rev_app s t = String.rev s +:+ t.
Proof.
  unfold String.rev. revert t. induction s as [|c s IH]; intros t; simpl; [done|].
  rewrite (IH (String c t)), (IH (String c "")). by rewrite append_assoc.
Qed.

Lemma rev_cons (c : ascii) (s : string) :
  String.rev (String c s) = String.rev s +:+ String c "".
Proof. unfold String.rev at 1. simpl. apply rev_app_append. Qed.

(** Without a dot there is nothing to split. *)
Lemma split_dot_aux_dotless (acc s : string) :
  dotless s = true -> PyStr.split_dot_aux acc s = [String.rev acc +:+ s].
Proof.
  revert acc. induction s as [|c s IH]; intros acc Hs; simpl in *.
  - by rewrite append_empty_r.
  - apply andb_true_iff in Hs as [Hc Hs]. apply negb_true_iff in Hc. rewrite Hc.
    rewrite (IH _ Hs), rev_cons, append_assoc. done.
Qed.

Lemma split_dot_aux_nonempty (acc s : string) : PyStr.split_dot_aux acc s <> [].
Proof.
  revert acc. induction s as [|c s IH]; intros acc; simpl; [done|].
  destruct (Ascii.eqb c "."); [done | apply IH].
Qed.

Lemma last_cons_nonempty {A} (x d : A) (l : list A) :
  l <> [] -> List.last (x :: l) d = List.last l d.
Proof. by destruct l. Qed.

(** The last piece of a split is what follows the last dot. *)
Lemma split_dot_aux_last (acc base ext : string) :
  dotless ext = true ->
  PyStr.last_item (PyStr.split_dot_aux acc (base +:+ "." +:+ ext)) = ext.
Proof.
  intros Hext. unfold PyStr.last_item. revert acc.
  induction base as [|c base IH]; intros acc.
  - rewrite append_empty_l. change ("." +:+ ext) with (String "."%char ext).
    change (PyStr.split_dot_aux acc (String "."%char ext))
      with (String.rev acc :: PyStr.split_dot_aux "" ext).
    rewrite last_cons_nonempty by apply split_dot_aux_nonempty.
    by rewrite split_dot_aux_dotless.
  - rewrite append_cons. cbn [PyStr.split_dot_aux]. destruct (Ascii.eqb c ".").
    + rewrite last_cons_nonempty by apply split_dot_aux_nonempty. apply IH.
    + apply IH.
Qed.

(** The extension is what follows the last dot, in the lower case of the
    interpreter. *)
Lemma file_extension_raw (base ext mime : string) (data : list Byte.byte) :
  dotless ext = true ->
  file_extension (named (base +:+ "." +:+ ext) mime data) = str_lower ext
  /\ file_extension (named ext mime data) = str_lower ext.
Proof.
  intros Hext. unfold file_extension, PyStr.split_dot. simpl. split.
  - by rewrite split_dot_aux_last.
  - by rewrite split_dot_aux_dotless.
Qed.

(** A text that is one of the supported extensions up to the case of its
    letters is brought to that extension by [str.lower]. *)
Lemma str_lower_supported (ext e : string) :
  In e supported_extensions -> equal_ignoring_case ext e = true -> str_lower ext = e.
Proof.
  intros He Heq.
  assert (Hascii : PyStr.ascii_only e = true /\ PyStr.ascii_lower e = e).
  { unfold supported_extensions in He. simpl in He.
    repeat (destruct He as [<- | He]; [by split|]). done. }
  destruct Hascii as [Hascii Hlow].
  rewrite (str_lower_ascii ext (equal_ignoring_case_ascii_only _ _ Heq Hascii)).
  apply ascii_lower_eq_iff in Heq. by rewrite Heq.
Qed.

(** X4.  The extension on which [get_file_text] dispatches is the part of the
    file name after its last dot, brought to lower case by the interpreter,
    whatever precedes that dot; a name without any dot is its own extension.
    In particular a name that ends in a supported extension written in any
    mix of upper and lower case dispatches on that extension. *)
Theorem file_extension_after_last_dot (base ext mime : string) (data : list Byte.byte) :
  dotless ext = true ->
  file_extension (named (base +:+ "." +:+ ext) mime data) = str_lower ext
  /\ file_extension (named ext mime data) = str_lower ext
  /\ (forall e, In e supported_extensions -> equal_ignoring_case ext e = true ->
                file_extension (named (base +:+ "." +:+ ext) mime data) = e
                /\ file_extension (named ext mime data) = e).
Proof.
  intros Hext. destruct (file_extension_raw base ext mime data Hext) as [Hdot Hbare].
  split; [done|]. split; [done|].
  intros e He Heq. rewrite Hdot, Hbare. split; by apply str_lower_supported.
Qed.

End TextFacts.

(* ===================================================================== *)
(** * Reasoning about the script: frames *)
(* ===================================================================== *)

Section AppFacts.
Context {W : Type} `{!Services W} {unicode : Unicode}.

Implicit Types s : @AppState W.

Ltac split_conj := try red; repeat match goal with |- _ /\ _ => split end.

#[local] Instance lists_kept_preorder : PreOrder (@lists_kept W).
Proof.
  split.
  - by intros s l _.
  - intros s1 s2 s3 H12 H23 l Hl. rewrite H23; [by apply H12|].
    by rewrite H12.
Qed.

#[local] Instance read_only_preorder : PreOrder (@read_only W).
Proof.
  split.
  - intros s. split_conj; [reflexivity | reflexivity | reflexivity |].
    exists []. by rewrite app_nil_r.
  - intros s1 s2 s3 (Hl & Hs & Hw & evs & Ht) (Hl' & Hs' & Hw' & evs' & Ht').
    split_conj; [by etrans | congruence | congruence |].
    exists (evs ++ evs'). by rewrite Ht', Ht, app_assoc.
Qed.

#[local] Instance adds_events_preorder (Q : Event -> Prop) : PreOrder (@adds_events W Q).
Proof.
  split.
  - intros s. split_conj; [reflexivity | reflexivity |].
    exists []. split; [by rewrite app_nil_r | constructor].
  - intros s1 s2 s3 (Hh & Hs & evs & Ht & HQ) (Hh' & Hs' & evs' & Ht' & HQ').
    split_conj; [congruence | congruence |].
    exists (evs ++ evs'). split; [by rewrite Ht', Ht, app_assoc | by apply Forall_app].
Qed.

Lemma new_events_app s s' (evs : list Event) :
  trace s' = trace s ++ evs -> new_events s s' = evs.
Proof. intros H. unfold new_events. rewrite H. apply drop_app_length. Qed.

(** ** Rules for the monad *)

Lemma keeps_ret {A} (P : relation (@AppState W)) `{!Reflexive P} (a : A) : keeps P (ret a).
Proof. intros s. reflexivity. Qed.

Lemma keeps_bind {A B} (P : relation (@AppState W)) `{!Transitive P}
      (c : App A) (k : A -> App B) :
  keeps P c -> (forall a, keeps P (k a)) -> keeps P (bind c k).
Proof.
  intros Hc Hk s. unfold bind. specialize (Hc s).
  destruct (c s) as [a s1]. simpl in Hc. etrans; [exact Hc | apply Hk].
Qed.

Lemma keeps_for_each {A} (P : relation (@AppState W)) `{!PreOrder P}
      (xs : list A) (body : A -> App unit) :
  (forall x, keeps P (body x)) -> keeps P (for_each xs body).
Proof.
  intros Hbody. induction xs as [|x xs IH]; simpl.
  - apply (keeps_ret P).
  - apply (keeps_bind P); [apply Hbody | intros _; exact IH].
Qed.

(** ** The primitive effects that leave the lists alone *)

Lemma emit_read_only (e : Event) : keeps (W:=W) read_only (emit e).
Proof. intros s. split_conj; simpl; [by intros l _ | done | done | by exists [e]]. Qed.

Lemma list_new_read_only (items : list ScreeningResult) : keeps (W:=W) read_only (list_new items).
Proof.
  intros s. split_conj; simpl; [| reflexivity | reflexivity | exists []; by rewrite app_nil_r].
  intros l Hl. simpl. apply lookup_insert_ne. intros <-.
  apply (is_fresh (dom (heap s))). by apply elem_of_dom.
Qed.

Lemma list_items_read_only (l : ref) : keeps (W:=W) read_only (list_items l).
Proof. intros s. reflexivity. Qed.

Lemma session_get_read_only : keeps (W:=W) read_only (@session_get W).
Proof. intros s. reflexivity. Qed.

Lemma emit_adds_events (Q : Event -> Prop) (e : Event) : Q e -> keeps (W:=W) (adds_events Q) (emit e).
Proof.
  intros HQ s. split_conj; simpl; [reflexivity | reflexivity |].
  exists [e]. split; [done | by constructor].
Qed.

Lemma external_adds_events {A} (Q : Event -> Prop) (call : W -> A * W) :
  keeps (W:=W) (adds_events Q) (external call).
Proof.
  intros s. unfold external. destruct (call (world s)) as [a w].
  split_conj; simpl; [reflexivity | reflexivity |].
  exists []. split; [by rewrite app_nil_r | constructor].
Qed.

(** Structural steps of a frame proof: follow the shape of the computation. *)
Ltac frame_step :=
  lazymatch goal with
  | |- keeps ?P (bind _ _) => apply (keeps_bind P); [| intros ?]
  | |- keeps ?P (ret _) => apply (keeps_ret P)
  | |- keeps ?P (for_each _ _) => apply (keeps_for_each P); intros ?
  | |- keeps _ (if ?b then _ else _) => destruct b
  | |- keeps _ (match ?x with _ => _ end) => destruct x
  end.

Ltac read_only_step :=
  first [ apply emit_read_only | apply list_new_read_only
        | apply list_items_read_only | apply session_get_read_only
        | frame_step ].

(** ** The display never writes to a list *)

Lemma show_result_read_only (result : ScreeningResult) :
  keeps (W:=W) read_only (show_result result).
Proof. unfold show_result. cbv zeta. repeat read_only_step. Qed.

Lemma show_display_read_only (displayed : list ScreeningResult) :
  keeps (W:=W) read_only (show_display displayed).
Proof.
  unfold show_display.
  repeat first [ apply show_result_read_only | read_only_step ].
Qed.

Lemma filter_and_display_read_only (results : ref) (inp : Inputs) :
  keeps (W:=W) read_only (filter_and_display results inp).
Proof.
  unfold filter_and_display. cbv zeta.
  repeat first [ apply show_display_read_only | read_only_step ].
Qed.

(** Pointwise steps of a computation. *)
Lemma bind_assoc_at {A B C} (c : App A) (k1 : A -> App B) (k2 : B -> App C) s :
  bind (bind c k1) k2 s = bind c (fun a => bind (k1 a) k2) s.
Proof. unfold bind. by destruct (c s). Qed.

Lemma bind_emit {A} (e : Event) (k : unit -> App A) s :
  bind (emit e) k s = k tt (snd (emit e s)).
Proof. reflexivity. Qed.

Lemma bind_list_items {A} (l : ref) (k : list ScreeningResult -> App A) s
      (items : list ScreeningResult) :
  heap s !! l = Some items -> bind (list_items l) k s = k items s.
Proof. intros H. unfold bind, list_items. by rewrite H. Qed.

(** A list object that was just built holds the items it was built from. *)
Lemma bind_list_new_items {A} (items : list ScreeningResult)
      (k : ref -> list ScreeningResult -> App A) s :
  bind (list_new items) (fun l => bind (list_items l) (k l)) s
  = k (fresh (dom (heap s))) items (snd (list_new items s)).
Proof. unfold bind, list_items, list_new. simpl. by rewrite lookup_insert_eq. Qed.

(** The display shows the outcome of the pipeline on the session's list: the
    comprehensions and [sorted] of the script, run on list objects, compute
    [View.sorted_results] of [View.filtered_results]. *)
Lemma filter_and_display_pipeline (results : ref) (inp : Inputs) s
      (items : list ScreeningResult) :
  heap s !! results = Some items ->
  exists s1,
    read_only s s1
    /\ filter_and_display results inp s
       = show_display
           (View.sorted_results
              (View.filtered_results items (target_location inp) (min_score inp))) s1.
Proof.
  intros Hitems. unfold filter_and_display, View.sorted_results, View.filtered_results.
  cbv zeta. rewrite !bind_emit.
  destruct (PyStr.truthy (target_location inp)).
  - rewrite bind_assoc_at, (bind_list_items results _ _ items) by done.
    rewrite !bind_list_new_items.
    eexists. split; [|reflexivity].
    repeat (etrans; [|first [apply list_new_read_only | apply emit_read_only]]).
    reflexivity.
  - unfold bind at 1. unfold ret at 1.
    rewrite (bind_list_items results _ _ items) by done.
    rewrite !bind_list_new_items.
    eexists. split; [|reflexivity].
    repeat (etrans; [|first [apply list_new_read_only | apply emit_read_only]]).
    reflexivity.
Qed.

(** What the display offers for download is [View.export] of the displayed
    results; for an empty display there is the warning and no download. *)
Lemma show_display_exports (displayed : list ScreeningResult) s :
  match View.export displayed with
  | Some workbook =>
      exists rest,
        new_events s (snd (show_display displayed s))
        = EvDownloadButton "📥 Download Results as Excel" workbook
                           "resume_screening_results.xlsx" :: rest
  | None =>
      new_events s (snd (show_display displayed s))
      = [EvWarning "No resumes match your current filter criteria."]
  end.
Proof.
  unfold show_display. destruct displayed as [|r displayed].
  - simpl. by apply new_events_app.
  - rewrite bool_decide_eq_false_2 by done. cbn [negb View.export].
    rewrite bind_emit. set (s1 := snd (emit _ s)).
    match goal with |- context [bind ?c ?k s1] =>
      destruct (keeps_bind read_only c k) with (s := s1) as (_ & _ & _ & evs & Hevs)
    end.
    + apply emit_read_only.
    + intros _. repeat first [ apply show_result_read_only | read_only_step ].
    + exists evs. apply new_events_app. rewrite Hevs. subst s1. simpl.
      by rewrite <- app_assoc.
Qed.

Lemma screening_evaluation_read_only (inp : Inputs) :
  keeps (W:=W) read_only (screening_evaluation inp).
Proof.
  unfold screening_evaluation.
  repeat first [ apply filter_and_display_read_only | read_only_step ].
Qed.

(** ** Runs that leave the ResultSet alone *)

#[local] Instance results_untouched_preorder : PreOrder (@results_untouched W).
Proof.
  split.
  - intros s Hok. split_conj; [done | reflexivity | done | done].
  - intros s1 s2 s3 H12 H23 Hok1.
    destruct (H12 Hok1) as (Hok2 & Hl12 & Hr12 & Hs12).
    destruct (H23 Hok2) as (Hok3 & Hl23 & Hr23 & Hs23).
    split_conj; [done | by etrans | congruence | auto].
Qed.

Lemma keeps_weaken {A} (P Q : relation (@AppState W)) (c : App A) :
  (forall s s', P s s' -> Q s s') -> keeps P c -> keeps Q c.
Proof. intros HPQ Hc s. apply HPQ, Hc. Qed.

Lemma read_only_results_untouched s s' : read_only s s' -> results_untouched s s'.
Proof.
  intros (Hl & Hs & _ & _) Hok.
  assert (Hsame : forall l, session_results s = Some l -> heap s' !! l = heap s !! l)
    by (intros l Hsl; apply Hl, Hok, Hsl).
  split_conj.
  - intros l Hsl. rewrite Hs in Hsl. rewrite (Hsame l Hsl). by apply Hok.
  - exact Hl.
  - unfold result_set. rewrite Hs. destruct (session_results s) as [l|]; [|done].
    by rewrite Hsame.
  - intros l Hsl. by rewrite Hs.
Qed.

Lemma init_session_results_untouched : keeps (W:=W) results_untouched init_session.
Proof.
  intros s Hok. unfold init_session, bind, session_get.
  destruct (session_results s) as [l|] eqn:Hs; simpl.
  - split_conj; [done | reflexivity | done | congruence].
  - split_conj.
    + intros l [= <-]. simpl. rewrite lookup_insert_eq. by eexists.
    + by destruct (list_new_read_only [] s) as [Hkept _].
    + unfold result_set. simpl. by rewrite lookup_insert_eq, Hs.
    + intros l. discriminate.
Qed.

(** A run of the script in which no evaluation starts: the button is not
    clicked, or the job description or the file list is empty. *)
Lemma script_results_untouched (inp : Inputs) :
  evaluate_clicked inp = false \/ job_description inp = "" \/ uploaded_files inp = [] ->
  keeps (W:=W) results_untouched (script inp).
Proof.
  intros Hno.
  assert (Hro : forall A (c : App A), keeps (W:=W) read_only c -> keeps results_untouched c)
    by (intros A c; apply keeps_weaken, read_only_results_untouched).
  assert (Hside : keeps (W:=W) read_only (sidebar inp)).
  { unfold sidebar. repeat read_only_step.
    unfold evaluate_resumes.
    destruct Hno as [Hno | [-> | ->]]; [discriminate | |].
    - simpl. apply emit_read_only.
    - rewrite bool_decide_eq_true_2, andb_false_r by done. apply emit_read_only. }
  unfold script.
  repeat first [ apply init_session_results_untouched
               | apply Hro;
                 first [ apply emit_read_only | exact Hside
                       | apply screening_evaluation_read_only ]
               | frame_step ].
Qed.

(** A run that stops for want of the API key. *)
Lemma script_without_key_results_untouched (inp : Inputs) :
  secrets inp !! "GOOGLE_API_KEY" = None ->
  keeps (W:=W) results_untouched (script inp).
Proof.
  intros Hkey. unfold script. rewrite Hkey.
  repeat first [ apply init_session_results_untouched
               | apply (keeps_weaken read_only); [apply read_only_results_untouched|];
                 apply emit_read_only
               | frame_step ].
Qed.

Lemma reruns_results_untouched (inputs : list Inputs) s :
  Forall (fun inp => evaluate_clicked inp = false) inputs ->
  results_untouched s (reruns inputs s).
Proof.
  intros Hno. revert s. induction Hno as [|inp inputs Hinp _ IH]; intros s.
  - reflexivity.
  - unfold reruns. simpl. etrans; [|apply IH].
    apply script_results_untouched. by left.
Qed.

(** ** The two helper functions *)

Lemma get_file_text_adds_events (f : UploadedFile) :
  keeps (W:=W) (adds_events extraction_event) (get_file_text f).
Proof.
  unfold get_file_text, read_text. cbv zeta.
  repeat first [ apply emit_adds_events; exact I | apply external_adds_events | frame_step ].
Qed.

Lemma get_jd_match_adds_events (jd text : string) :
  keeps (W:=W) (adds_events (scorer_event jd text)) (get_jd_match_from_gemini jd text).
Proof.
  unfold get_jd_match_from_gemini.
  repeat first [ apply emit_adds_events; by simpl | apply external_adds_events | frame_step ].
Qed.

(** An analysis the scorer returns is the provider's answer for this job
    description and this text, in the world at that moment. *)
Lemma get_jd_match_value (jd text : string) s (a : CandidateAnalysis) :
  fst (get_jd_match_from_gemini jd text s) = Some a ->
  fst (gemini_score jd text (world s)) = Ok a.
Proof.
  unfold get_jd_match_from_gemini, bind, emit, external. simpl.
  destruct (gemini_score jd text (world s)) as [[a'|e] w]; simpl; congruence.
Qed.

(** ** The loop body, case by case *)

Lemma process_file_no_text (jd : string) (nr : ref) (f : UploadedFile) s :
  fst (extraction f s) = None \/ fst (extraction f s) = Some "" ->
  process_file jd nr f s = emit (could_not_extract f) (snd (extraction f s)).
Proof.
  unfold extraction, at_extraction, process_file, bind. simpl.
  destruct (get_file_text f _) as [[text|] s1]; simpl; intros [H|H]; try discriminate.
  - injection H as ->. reflexivity.
  - reflexivity.
Qed.

Lemma process_file_no_analysis (jd : string) (nr : ref) (f : UploadedFile) s (text : string) :
  fst (extraction f s) = Some text -> PyStr.truthy text = true ->
  let scoring := get_jd_match_from_gemini jd text (snd (extraction f s)) in
  fst scoring = None \/ (exists a, fst scoring = Some a /\ analysis_truthy a = false) ->
  process_file jd nr f s = emit (could_not_analyse f) (snd scoring).
Proof.
  unfold extraction, at_extraction, process_file, bind. simpl.
  destruct (get_file_text f _) as [rt s1]; simpl. intros -> Ht. rewrite Ht.
  destruct (get_jd_match_from_gemini jd text s1) as [[a|] s2]; simpl.
  - intros [H | (a' & [= <-] & ->)]; [discriminate | reflexivity].
  - reflexivity.
Qed.

Lemma process_file_scored (jd : string) (nr : ref) (f : UploadedFile) s
      (text : string) (a : CandidateAnalysis) :
  fst (extraction f s) = Some text -> PyStr.truthy text = true ->
  let scoring := get_jd_match_from_gemini jd text (snd (extraction f s)) in
  fst scoring = Some a -> analysis_truthy a = true ->
  process_file jd nr f s
  = emit (successfully_evaluated f)
         (snd (list_append nr {| filename := file_name f; analysis := a |} (snd scoring))).
Proof.
  unfold extraction, at_extraction, process_file, bind. simpl.
  destruct (get_file_text f _) as [rt s1]; simpl. intros -> Ht. rewrite Ht.
  destruct (get_jd_match_from_gemini jd text s1) as [an s2]; simpl.
  intros -> Ha. by rewrite Ha.
Qed.

(** ** One turn of the loop, and the loop *)

Lemma scorer_call_ok_mono (jd : string) (files files' : list UploadedFile) (e : Event) :
  (forall f, In f files -> In f files') ->
  scorer_call_ok (W:=W) jd files e -> scorer_call_ok (W:=W) jd files' e.
Proof.
  intros Hsub. destruct e; simpl; try done.
  intros (? & ? & f & s1 & Hin & Hf). split_conj; [done | done |].
  exists f, s1. auto.
Qed.

Lemma process_file_turn (jd : string) (nr : ref) (f : UploadedFile) s :
  let s' := snd (process_file jd nr f s) in
  exists c evs,
    contributes (W:=W) jd f c
    /\ heap s' !! nr = (fun items => items ++ c) <$> heap s !! nr
    /\ (forall l, l <> nr -> heap s' !! l = heap s !! l)
    /\ session_results s' = session_results s
    /\ trace s' = trace s ++ evs
    /\ Forall (scorer_call_ok (W:=W) jd [f]) evs.
Proof.
  intros s'.
  destruct (get_file_text_adds_events f (at_extraction f s)) as (Hh1 & Hs1 & evs1 & Ht1 & He1).
  fold (extraction f s) in Hh1, Hs1, Ht1.
  assert (He1' : Forall (scorer_call_ok (W:=W) jd [f]) evs1).
  { eapply Forall_impl; [exact He1|]. by intros []. }
  assert (Hunchanged : forall x : option (list ScreeningResult),
             (fun items => items ++ []) <$> x = x).
  { intros [items|]; simpl; [by rewrite app_nil_r | done]. }
  destruct (fst (extraction f s)) as [text|] eqn:Hext;
    [destruct (PyStr.truthy text) eqn:Htext|].
  - (* a non-empty text: the scorer runs *)
    set (scoring := get_jd_match_from_gemini jd text (snd (extraction f s))).
    destruct (get_jd_match_adds_events jd text (snd (extraction f s)))
      as (Hh2 & Hs2 & evs2 & Ht2 & He2).
    fold scoring in Hh2, Hs2, Ht2.
    assert (He2' : Forall (scorer_call_ok (W:=W) jd [f]) evs2).
    { eapply Forall_impl; [exact He2|]. intros [] He; try done.
      destruct He as [-> ->]. simpl. split_conj; [done | done |].
      exists f, (at_extraction f s). split; [by left | exact Hext]. }
    destruct (fst scoring) as [a|] eqn:Hsc; [destruct (analysis_truthy a) eqn:Ha|].
    + exists [{| filename := file_name f; analysis := a |}],
             (EvInfo ("Processing: " +:+ file_name f) :: evs1 ++ evs2
              ++ [successfully_evaluated f]).
      subst s'. rewrite (process_file_scored jd nr f s text a Hext Htext Hsc Ha).
      fold scoring. simpl. rewrite Hh2, Hh1, Hs2, Hs1, Ht2, Ht1. simpl.
      split_conj.
      * right. exists text, a, (at_extraction f s), (world (snd (extraction f s))).
        split_conj; try done. by apply get_jd_match_value.
      * by rewrite lookup_alter_eq.
      * intros l Hl. by rewrite lookup_alter_ne.
      * done.
      * by rewrite <- !app_assoc.
      * constructor; [done|]. repeat (apply Forall_app; split); try done.
        by repeat constructor.
    + exists [], (EvInfo ("Processing: " +:+ file_name f) :: evs1 ++ evs2
                  ++ [could_not_analyse f]).
      subst s'. rewrite (process_file_no_analysis jd nr f s text Hext Htext)
        by (right; by exists a).
      fold scoring. simpl. rewrite Hh2, Hh1, Hs2, Hs1, Ht2, Ht1. simpl.
      split_conj; [by left | by rewrite Hunchanged | done | done
                  | by rewrite <- !app_assoc |].
      constructor; [done|]. repeat (apply Forall_app; split); try done.
      by repeat constructor.
    + exists [], (EvInfo ("Processing: " +:+ file_name f) :: evs1 ++ evs2
                  ++ [could_not_analyse f]).
      subst s'. rewrite (process_file_no_analysis jd nr f s text Hext Htext)
        by (by left).
      fold scoring. simpl. rewrite Hh2, Hh1, Hs2, Hs1, Ht2, Ht1. simpl.
      split_conj; [by left | by rewrite Hunchanged | done | done
                  | by rewrite <- !app_assoc |].
      constructor; [done|]. repeat (apply Forall_app; split); try done.
      by repeat constructor.
  - (* the empty text *)
    exists [], (EvInfo ("Processing: " +:+ file_name f) :: evs1 ++ [could_not_extract f]).
    apply truthy_false in Htext as ->.
    subst s'. rewrite (process_file_no_text jd nr f s) by (by right).
    simpl. rewrite Hh1, Hs1, Ht1. simpl.
    split_conj; [by left | by rewrite Hunchanged | done | done
                | by rewrite <- !app_assoc |].
    constructor; [done|]. apply Forall_app; split; [done | by repeat constructor].
  - (* no text *)
    exists [], (EvInfo ("Processing: " +:+ file_name f) :: evs1 ++ [could_not_extract f]).
    subst s'. rewrite (process_file_no_text jd nr f s) by (by left).
    simpl. rewrite Hh1, Hs1, Ht1. simpl.
    split_conj; [by left | by rewrite Hunchanged | done | done
                | by rewrite <- !app_assoc |].
    constructor; [done|]. apply Forall_app; split; [done | by repeat constructor].
Qed.

Lemma for_each_process_file (jd : string) (nr : ref) (files : list UploadedFile) s :
  let s' := snd (for_each files (process_file jd nr) s) in
  exists cs evs,
    Forall2 (contributes (W:=W) jd) files cs
    /\ heap s' !! nr = (fun items => items ++ concat cs) <$> heap s !! nr
    /\ (forall l, l <> nr -> heap s' !! l = heap s !! l)
    /\ session_results s' = session_results s
    /\ trace s' = trace s ++ evs
    /\ Forall (scorer_call_ok (W:=W) jd files) evs.
Proof.
  revert s. induction files as [|f files IH]; intros s; cbn zeta.
  - exists [], []. simpl. rewrite app_nil_r.
    split_conj; [constructor | | done | done | done | constructor].
    destruct (heap s !! nr); simpl; by rewrite ?app_nil_r.
  - simpl. unfold bind.
    destruct (process_file jd nr f s) as [[] s1] eqn:Hturn.
    destruct (process_file_turn jd nr f s) as (c & evs1 & Hc & Hnr1 & Hl1 & Hs1 & Ht1 & He1).
    rewrite Hturn in Hnr1, Hl1, Hs1, Ht1. simpl in Hnr1, Hl1, Hs1, Ht1.
    destruct (IH s1) as (cs & evs2 & Hcs & Hnr2 & Hl2 & Hs2 & Ht2 & He2).
    exists (c :: cs), (evs1 ++ evs2). split_conj.
    + by constructor.
    + rewrite Hnr2, Hnr1. destruct (heap s !! nr); simpl; [|done].
      by rewrite <- app_assoc.
    + intros l Hl. by rewrite Hl2, Hl1.
    + congruence.
    + by rewrite Ht2, Ht1, app_assoc.
    + apply Forall_app; split.
      * eapply Forall_impl; [exact He1|]. intros e.
        apply scorer_call_ok_mono. intros f' [<- | []]. by left.
      * eapply Forall_impl; [exact He2|]. intros e.
        apply scorer_call_ok_mono. intros f' Hf'. by right.
Qed.

(** A run that passes the validation: the loop fills a new list object, and
    the session entry is rebound to it at the end. *)
Lemma evaluate_resumes_run (jd : string) (files : list UploadedFile) s :
  jd <> "" -> files <> [] ->
  let s' := snd (evaluate_resumes jd files s) in
  let nr := fresh (dom (heap s)) in
  exists cs evs,
    Forall2 (contributes (W:=W) jd) files cs
    /\ session_results s' = Some nr
    /\ heap s' !! nr = Some (concat cs)
    /\ (forall l, l <> nr -> heap s' !! l = heap s !! l)
    /\ trace s' = trace s ++ evs
    /\ Forall (scorer_call_ok (W:=W) jd files) evs.
Proof.
  intros Hjd Hfiles s' nr. subst s'. unfold evaluate_resumes.
  assert (PyStr.truthy jd = true) as -> by (by destruct jd).
  rewrite bool_decide_eq_false_2 by done. simpl. unfold bind. simpl.
  set (s1 := {| heap := <[fresh (dom (heap s)) := []]> (heap s);
                session_results := session_results s;
                trace := trace s ++ [EvSpinner _]; world := world s |}).
  destruct (for_each_process_file jd nr files s1) as (cs & evs & Hcs & Hnr & Hl & Hs & Ht & He).
  destruct (for_each files (process_file jd (fresh (dom (heap s)))) s1) as [[] s2] eqn:Hloop.
  subst nr. rewrite Hloop in Hnr, Hl, Hs, Ht. simpl in *. exists cs, (EvSpinner ("Evaluating " +:+ pretty (length files)
                                               +:+ " resume(s)...") :: evs).
  split_conj; [done | done | | | |].
  - by rewrite Hnr, lookup_insert_eq.
  - intros l Hne. by rewrite Hl, lookup_insert_ne.
  - by rewrite Ht, <- app_assoc.
  - by constructor.
Qed.

(** Without a usable text the turn of a file ends in the warning; the scorer
    is not called and no list changes. *)
Lemma process_file_without_text (jd : string) (nr : ref) (f : UploadedFile) s :
  fst (extraction f s) = None \/ fst (extraction f s) = Some "" ->
  let s' := snd (process_file jd nr f s) in
  heap s' = heap s
  /\ session_results s' = session_results s
  /\ exists evs, new_events s s'
                 = EvInfo ("Processing: " +:+ file_name f) :: evs ++ [could_not_extract f]
                 /\ Forall extraction_event evs.
Proof.
  intros Hno s'. subst s'. rewrite (process_file_no_text jd nr f s Hno).
  destruct (get_file_text_adds_events f (at_extraction f s)) as (Hh1 & Hs1 & evs1 & Ht1 & He1).
  fold (extraction f s) in Hh1, Hs1, Ht1. simpl.
  split_conj; [by rewrite Hh1 | by rewrite Hs1 |].
  exists evs1. split; [|done].
  apply new_events_app. simpl. rewrite Ht1. simpl. by rewrite <- !app_assoc.
Qed.

Lemma extraction_event_not_scorer_call (evs : list Event) :
  Forall extraction_event evs -> Forall (fun e => ~ is_scorer_call e) evs.
Proof. intros H. eapply Forall_impl; [exact H|]. intros [] He Hc; simpl in *; done. Qed.


(** Every result of the new ResultSet stems from one of the files, from a
    non-empty text extracted from it. *)
Lemma contributes_origin (jd : string) (files : list UploadedFile)
      (cs : list (list ScreeningResult)) (r : ScreeningResult) :
  Forall2 (contributes (W:=W) jd) files cs -> In r (concat cs) ->
  exists f text (s1 : @AppState W),
    In f files /\ filename r = file_name f
    /\ fst (get_file_text f s1) = Some text /\ PyStr.truthy text = true.
Proof.
  induction 1 as [|f c files cs Hc _ IH]; simpl; [done|].
  rewrite in_app_iff. intros [Hr | Hr].
  - destruct Hc as [-> | (text & a & s1 & w & -> & Hext & Ht & _)]; [done|].
    destruct Hr as [<- | []]. exists f, text, s1. by split_conj; [left | | |].
  - destruct (IH Hr) as (f' & text & s1 & Hin & Hrest).
    exists f', text, s1. split; [by right | done].
Qed.

(** Every result of the ResultSet a run leaves stems from one of its files. *)
Lemma run_results_origin (jd : string) (files : list UploadedFile) s (r : ScreeningResult) :
  jd <> "" -> files <> [] ->
  In r (result_set (snd (evaluate_resumes jd files s))) ->
  exists f text (s1 : @AppState W),
    In f files /\ filename r = file_name f
    /\ fst (get_file_text f s1) = Some text /\ PyStr.truthy text = true.
Proof.
  intros Hjd Hfiles Hr.
  destruct (evaluate_resumes_run jd files s Hjd Hfiles)
    as (cs & evs & Hcs & Hsess & Hnr & _).
  unfold result_set in Hr. rewrite Hsess, Hnr in Hr. simpl in Hr.
  by apply (contributes_origin jd files cs).
Qed.

(** ** C3, C5, C8, C9, C10: the evaluation run and the reruns *)


(** C5.  With an empty job description or an empty file list the evaluate
    block only shows the validation message: no list, the session entry and
    the outside world are as before, and after the whole run of the script the
    ResultSet is the one it was. *)
Theorem C5_validation_rejects (inp : Inputs) s :
  job_description inp = "" \/ uploaded_files inp = [] ->
  evaluate_resumes (job_description inp) (uploaded_files inp) s = emit validation_message s
  /\ (let s' := snd (evaluate_resumes (job_description inp) (uploaded_files inp) s) in
      heap s' = heap s /\ session_results s' = session_results s
      /\ world s' = world s /\ result_set s' = result_set s
      /\ new_events s s' = [validation_message])
  /\ (session_ok s -> result_set (snd (script inp s)) = result_set s).
Proof.
  intros Hbad.
  assert (Heq : evaluate_resumes (job_description inp) (uploaded_files inp) s
                = emit validation_message s).
  { unfold evaluate_resumes. destruct Hbad as [-> | ->]; [done|].
    by rewrite bool_decide_eq_true_2, andb_false_r. }
  split; [exact Heq|]. split.
  - rewrite Heq. cbv zeta. split_conj; [done | done | done | done |].
    by apply new_events_app.
  - intros Hok.
    by destruct (script_results_untouched inp (or_intror Hbad) s Hok) as (_ & _ & Hrs & _).
Qed.

(** C8.  Without the API key in the secrets, a run of the script stops right
    after the title, the caption, the divider and the setup instruction: no
    input widget is rendered, no external call is made, the outside world and
    the ResultSet are as before; nothing else in the inputs changes this. *)
Theorem C8_missing_api_key (inp : Inputs) s :
  secrets inp !! "GOOGLE_API_KEY" = None ->
  let s' := snd (script inp s) in
  fst (script inp s) = Stopped
  /\ new_events s s' = missing_key_screen
  /\ Forall (fun e => ~ is_input_widget e /\ ~ is_external_call e) (new_events s s')
  /\ world s' = world s
  /\ (session_ok s -> result_set s' = result_set s).
Proof.
  intros Hkey s'.
  assert (Hrun : fst (script inp s) = Stopped
                 /\ trace s' = trace s ++ missing_key_screen /\ world s' = world s).
  { subst s'. unfold script, bind, init_session, session_get. simpl. rewrite Hkey.
    destruct (session_results s); simpl; by rewrite <- !app_assoc. }
  destruct Hrun as (Hstop & Htrace & Hworld).
  split_conj; [done | by apply new_events_app | | done |].
  - rewrite (new_events_app s s' _ Htrace). unfold missing_key_screen.
    repeat (constructor; [split; intros [] |]). constructor.
  - intros Hok.
    by destruct (script_without_key_results_untouched inp Hkey s Hok) as (_ & _ & Hrs & _).
Qed.

(** C9.  Reruns of the script caused by changes of the filter controls (runs
    in which no evaluation is started) leave the ResultSet as it was: the
    session entry still refers to the same list object, that object and every
    other list object hold the same items, and the filter / sort / export
    block itself, in any state and for any control values, only creates new
    lists and renders. *)
Theorem C9_view_has_no_side_effects (inputs : list Inputs) s :
  session_ok s ->
  Forall (fun inp => evaluate_clicked inp = false) inputs ->
  let s' := reruns inputs s in
  result_set s' = result_set s
  /\ (forall l, session_results s = Some l ->
                session_results s' = Some l /\ heap s' !! l = heap s !! l)
  /\ lists_kept s s'
  /\ (forall inp s0, read_only s0 (snd (screening_evaluation inp s0))).
Proof.
  intros Hok Hno s'.
  destruct (reruns_results_untouched inputs s Hno Hok) as (_ & Hkept & Hrs & Hsess).
  fold s' in Hkept, Hrs, Hsess.
  split_conj; [done | | done |].
  - intros l Hl. split; [by apply Hsess|]. by apply Hkept, Hok.
  - intros inp s0. apply screening_evaluation_read_only.
Qed.

(** C10.  A file whose extraction returns the empty string takes the same
    path as a file whose extraction failed: its turn ends with the same
    warning, the scorer is not called, and nothing is added to any list. *)
Theorem C10_empty_text_is_skipped (jd : string) (nr : ref) (f : UploadedFile) s :
  fst (extraction f s) = Some "" ->
  let s' := snd (process_file jd nr f s) in
  process_file jd nr f s = emit (could_not_extract f) (snd (extraction f s))
  /\ (forall s0, fst (extraction f s0) = None ->
                 process_file jd nr f s0 = emit (could_not_extract f) (snd (extraction f s0)))
  /\ Forall (fun e => ~ is_scorer_call e) (new_events s s')
  /\ heap s' = heap s
  /\ session_results s' = session_results s.
Proof.
  intros Hempty s'.
  destruct (process_file_without_text jd nr f s (or_intror Hempty))
    as (Hh & Hs & evs & Hev & Hx).
  fold s' in Hh, Hs, Hev.
  split_conj; [| | | done | done].
  - by apply process_file_no_text; right.
  - intros s0 Hnone. by apply process_file_no_text; left.
  - rewrite Hev. constructor; [intros []|]. apply Forall_app; split.
    + by apply extraction_event_not_scorer_call.
    + repeat constructor. intros [].
Qed.

(** The two examples of an empty extraction: a txt file that decodes to the
    empty string, a pdf whose pages hold no text. *)
Lemma empty_txt_extraction (f : UploadedFile) s :
  file_extension f = "txt" -> decode_utf8 (file_data f) = Ok "" ->
  fst (extraction f s) = Some "".
Proof.
  intros Hext Hdec. unfold extraction, get_file_text, read_text, bind.
  rewrite Hext. simpl. by rewrite Hdec.
Qed.

Lemma accumulate_empty (pages : list string) :
  Forall (fun page => page = "") pages -> accumulate pages = "".
Proof.
  unfold accumulate. induction 1 as [|page pages -> _ IH]; [done|]. exact IH.
Qed.

Lemma textless_pdf_extraction (f : UploadedFile) (pages : list string) s :
  file_extension f = "pdf" -> fitz_pages (file_data f) = Ok pages ->
  Forall (fun page => page = "") pages ->
  fst (extraction f s) = Some "".
Proof.
  intros Hext Hpdf Hpages. unfold extraction, get_file_text, read_text, bind.
  rewrite Hext. simpl. rewrite Hpdf. simpl. by rewrite accumulate_empty.
Qed.

(** ** C6: files of an unsupported type *)

Lemma unsupported_get_file_text (f : UploadedFile) s :
  ~ In (file_extension f) supported_extensions ->
  get_file_text f s = (Some "", s).
Proof.
  intros Hunsupported. unfold get_file_text, read_text, bind. cbv zeta.
  assert (Hne : forall e, In e supported_extensions -> file_extension f <> e)
    by (intros e He Heq; apply Hunsupported; by rewrite Heq).
  rewrite !bool_decide_eq_false_2; [done | ..].
  - rewrite !elem_of_cons, elem_of_nil.
    intros [H | [H | [H | []]]]; revert H; apply Hne; simpl; tauto.
  - apply Hne; simpl; tauto.
  - apply Hne; simpl; tauto.
  - apply Hne; simpl; tauto.
Qed.

(** C6 (as the code has it).  For a file whose extension is none of pdf,
    docx, txt, png, jpg, jpeg, the extractor returns the empty text: it
    reports nothing and calls nothing.  The loop handles that text as a file
    without text: the turn of the file shows the could-not-extract warning,
    the scorer is not called, no list changes; and after a run no result of
    the ResultSet bears the file's name. *)
Theorem C6_unsupported_extension (f : UploadedFile) :
  ~ In (file_extension f) supported_extensions ->
  (forall s, get_file_text f s = (Some "", s))
  /\ (forall jd nr s,
        process_file jd nr f s = emit (could_not_extract f) (at_extraction f s)
        /\ new_events s (snd (process_file jd nr f s))
           = [EvInfo ("Processing: " +:+ file_name f); could_not_extract f])
  /\ (forall jd files s r,
        jd <> "" -> files <> [] ->
        In r (result_set (snd (evaluate_resumes jd files s))) ->
        filename r <> file_name f).
Proof.
  intros Hunsupported. split_conj.
  - intros s. by apply unsupported_get_file_text.
  - intros jd nr s.
    assert (Hext : extraction f s = (Some "", at_extraction f s))
      by (by apply unsupported_get_file_text).
    assert (Hturn : process_file jd nr f s = emit (could_not_extract f) (at_extraction f s)).
    { rewrite (process_file_no_text jd nr f s); rewrite Hext; [done | by right]. }
    split; [exact Hturn|]. rewrite Hturn. apply new_events_app. simpl.
    by rewrite <- app_assoc.
  - intros jd files s r Hjd Hfiles Hr Hname.
    destruct (run_results_origin jd files s r Hjd Hfiles Hr)
      as (f' & text & s1 & _ & Hname' & Hext & Htext).
    assert (Hsame : file_extension f' = file_extension f).
    { unfold file_extension. by rewrite <- Hname', Hname. }
    rewrite unsupported_get_file_text in Hext by (by rewrite Hsame).
    simpl in Hext. injection Hext as <-. discriminate.
Qed.

(** ** C7: the text of a docx file *)

Lemma docx_text_from (acc : string) (paragraphs : list string) :
  fold_left (fun text para => text +:+ (para +:+ nl)) paragraphs acc
  = acc +:+ newline_terminated paragraphs.
Proof.
  revert acc. induction paragraphs as [|p ps IH]; intros acc; simpl.
  - by rewrite append_empty_r.
  - by rewrite IH, !append_assoc.
Qed.

Lemma docx_text_newline_terminated (paragraphs : list string) :
  docx_text paragraphs = newline_terminated paragraphs.
Proof. unfold docx_text. by rewrite docx_text_from. Qed.

Lemma newline_terminated_join (p : string) (ps : list string) :
  newline_terminated (p :: ps) = PyStr.join nl (p :: ps) +:+ nl.
Proof.
  revert p. induction ps as [|q ps IH]; intros p.
  - simpl. by rewrite append_empty_r.
  - change (newline_terminated (p :: q :: ps))
      with (p +:+ nl +:+ newline_terminated (q :: ps)).
    change (PyStr.join nl (p :: q :: ps)) with (p +:+ nl +:+ PyStr.join nl (q :: ps)).
    by rewrite IH, !append_assoc.
Qed.

(** C7 (as the code has it).  For a docx file whose document opens, the
    extracted text is the text of every paragraph, in document order, each
    followed by a newline: the paragraphs joined by newlines plus one newline
    after the last paragraph, and the empty text for a document without
    paragraphs.  Nothing is reported and nothing else changes. *)
Theorem C7_docx_text (f : UploadedFile) (paragraphs : list string) s :
  file_extension f = "docx" ->
  docx_paragraphs (file_data f) = Ok paragraphs ->
  get_file_text f s = (Some (newline_terminated paragraphs), s)
  /\ newline_terminated paragraphs
     = match paragraphs with
       | [] => ""
       | _ :: _ => PyStr.join nl paragraphs +:+ nl
       end.
Proof.
  intros Hext Hdoc. split.
  - unfold get_file_text, read_text, bind. rewrite Hext. simpl.
    rewrite Hdoc. simpl. by rewrite docx_text_newline_terminated.
  - destruct paragraphs as [|p ps]; [done|]. apply newline_terminated_join.
Qed.

(** ** The helper functions in full: what they return, show and call *)

Lemma file_extension_cases (f : UploadedFile) :
  file_extension f = "pdf" \/ file_extension f = "docx" \/ file_extension f = "txt"
  \/ In (file_extension f) image_extensions
  \/ ~ In (file_extension f) supported_extensions.
Proof.
  destruct (decide (file_extension f = "pdf")); [tauto|].
  destruct (decide (file_extension f = "docx")); [tauto|].
  destruct (decide (file_extension f = "txt")); [tauto|].
  destruct (decide (file_extension f = "png")) as [->|]; [simpl; tauto|].
  destruct (decide (file_extension f = "jpg")) as [->|]; [simpl; tauto|].
  destruct (decide (file_extension f = "jpeg")) as [->|]; [simpl; tauto|].
  do 4 right. simpl. intuition congruence.
Qed.

Lemma ocr_request_image (f : UploadedFile) :
  In (file_extension f) image_extensions ->
  ocr_request f = [EvOcrCall (file_type f) (file_data f)].
Proof.
  intros Him. unfold ocr_request. rewrite bool_decide_eq_true_2; [done|].
  by apply list_elem_of_In.
Qed.

Lemma ocr_request_other (f : UploadedFile) :
  ~ In (file_extension f) image_extensions -> ocr_request f = [].
Proof.
  intros Him. unfold ocr_request. rewrite bool_decide_eq_false_2; [done|].
  by rewrite list_elem_of_In.
Qed.

Lemma filter_external_none (evs : list Event) :
  Forall (fun e => ~ is_external_call e) evs -> List.filter external_call_b evs = [].
Proof.
  induction 1 as [|e evs He _ IH]; [done|].
  simpl. rewrite IH. destruct e; simpl in *; try done; by destruct He.
Qed.

(** [get_file_text], whatever the file: no list and no session entry changes;
    the trace grows by the OCR request of an image and, exactly when [None] is
    returned, by the error report of this file; only an image touches the
    outside world. *)
Lemma get_file_text_shape (f : UploadedFile) s :
  let r := get_file_text f s in
  heap (snd r) = heap s
  /\ session_results (snd r) = session_results s
  /\ (~ In (file_extension f) image_extensions -> world (snd r) = world s)
  /\ exists report,
       trace (snd r) = trace s ++ ocr_request f ++ report
       /\ match fst r with
          | None => exists e, report = [read_error f e]
          | Some _ => report = []
          end.
Proof.
  cbv zeta. unfold get_file_text, read_text, bind. cbv zeta.
  destruct (file_extension_cases f) as [Hx | [Hx | [Hx | [Hx | Hx]]]].
  - rewrite ocr_request_other by (rewrite Hx; simpl; intuition discriminate).
    rewrite Hx. simpl.
    destruct (fitz_pages (file_data f)) as [pages|e]; simpl;
      (split_conj; [done | done | done |]).
    + exists []. by rewrite app_nil_r.
    + exists [read_error f e]. split; [done | by exists e].
  - rewrite ocr_request_other by (rewrite Hx; simpl; intuition discriminate).
    rewrite Hx. simpl.
    destruct (docx_paragraphs (file_data f)) as [paragraphs|e]; simpl;
      (split_conj; [done | done | done |]).
    + exists []. by rewrite app_nil_r.
    + exists [read_error f e]. split; [done | by exists e].
  - rewrite ocr_request_other by (rewrite Hx; simpl; intuition discriminate).
    rewrite Hx. simpl.
    destruct (decode_utf8 (file_data f)) as [text|e]; simpl;
      (split_conj; [done | done | done |]).
    + exists []. by rewrite app_nil_r.
    + exists [read_error f e]. split; [done | by exists e].
  - rewrite (ocr_request_image f Hx).
    rewrite !bool_decide_eq_false_2
      by (intros Heq; rewrite Heq in Hx; simpl in Hx; intuition discriminate).
    rewrite bool_decide_eq_true_2 by (by apply list_elem_of_In).
    unfold external, emit. simpl.
    destruct (gemini_ocr (file_type f) (file_data f) (world s)) as [[text|e] w]; simpl;
      (split_conj; [done | done | done |]).
    + by exists [].
    + exists [read_error f e]. split; [by rewrite <- app_assoc | by exists e].
  - rewrite ocr_request_other by (intros Him; apply Hx; simpl in *; tauto).
    pose proof (unsupported_get_file_text f s Hx) as Hget.
    unfold get_file_text, read_text, bind in Hget. cbv zeta in Hget. rewrite Hget. simpl.
    split_conj; [done | done | done |]. exists []. by rewrite app_nil_r.
Qed.

(** X5.  Every failed extraction is reported, and only a failed one:
    [get_file_text] returns [None] exactly when it has shown the error with the
    file's name as the last thing it did; when it returns a text it has shown
    nothing.  No list and no session entry changes. *)
Theorem get_file_text_reports_failure (f : UploadedFile) s :
  let r := get_file_text f s in
  heap (snd r) = heap s
  /\ session_results (snd r) = session_results s
  /\ match fst r with
     | None => exists e, new_events s (snd r) = ocr_request f ++ [read_error f e]
     | Some _ => new_events s (snd r) = ocr_request f
     end.
Proof.
  destruct (get_file_text_shape f s) as (Hh & Hs & _ & report & Ht & Hreport).
  cbv zeta. split_conj; [done | done |].
  destruct (fst (get_file_text f s)).
  - subst report. rewrite app_nil_r in Ht. by apply new_events_app.
  - destruct Hreport as [e ->]. exists e. by apply new_events_app.
Qed.

(** X6.  OCR is requested exactly for the files whose extension is png, jpg
    or jpeg: one request, with the declared MIME type and the bytes of the
    file; for every other file the extractor makes no request and leaves the
    outside world as it is. *)
Theorem ocr_exactly_for_images (f : UploadedFile) s :
  let r := get_file_text f s in
  ((exists e, In e (new_events s (snd r)) /\ is_external_call e)
   <-> In (file_extension f) image_extensions)
  /\ (In (file_extension f) image_extensions ->
      List.filter external_call_b (new_events s (snd r))
      = [EvOcrCall (file_type f) (file_data f)])
  /\ (~ In (file_extension f) image_extensions -> world (snd r) = world s).
Proof.
  destruct (get_file_text_shape f s) as (_ & _ & Hworld & report & Ht & Hreport).
  cbv zeta. apply new_events_app in Ht.
  assert (Hquiet : Forall (fun e => ~ is_external_call e) report).
  { destruct (fst (get_file_text f s)).
    - subst report. constructor.
    - destruct Hreport as [e ->]. repeat constructor. intros []. }
  split_conj; [| | done].
  - rewrite Ht. split.
    + intros (e & Hin & Hcall). apply in_app_iff in Hin as [Hin | Hin].
      * destruct (decide (In (file_extension f) image_extensions)) as [|Hno]; [done|].
        by rewrite (ocr_request_other f Hno) in Hin.
      * rewrite List.Forall_forall in Hquiet. by destruct (Hquiet e Hin).
    + intros Him. rewrite (ocr_request_image f Him).
      exists (EvOcrCall (file_type f) (file_data f)). split; [by left | done].
  - intros Him. rewrite Ht, (ocr_request_image f Him). simpl.
    by rewrite (filter_external_none report Hquiet).
Qed.

Lemma accumulate_from (acc : string) (pieces : list string) :
  fold_left (fun text piece => text +:+ piece) pieces acc
  = acc +:+ PyStr.join "" pieces.
Proof.
  revert acc. induction pieces as [|p ps IH]; intros acc.
  - simpl. by rewrite append_empty_r.
  - cbn [fold_left]. rewrite IH. destruct ps as [|q ps].
    + simpl. by rewrite !append_empty_r.
    + change (PyStr.join "" (p :: q :: ps)) with (p +:+ "" +:+ PyStr.join "" (q :: ps)).
      by rewrite append_empty_l, append_assoc.
Qed.

(** X7.  For a pdf file the extracted text is the text of the pages, in page
    order, joined with nothing in between; a document that does not open
    gives [None] and the error report.  Nothing else happens. *)
Theorem pdf_text_is_pages_joined (f : UploadedFile) s :
  file_extension f = "pdf" ->
  get_file_text f s
  = match fitz_pages (file_data f) with
    | Ok pages => (Some (PyStr.join "" pages), s)
    | Raise e => (None, snd (emit (read_error f e) s))
    end.
Proof.
  intros Hext. unfold get_file_text, read_text, bind. rewrite Hext. simpl.
  destruct (fitz_pages (file_data f)) as [pages|e]; simpl; [|done].
  unfold accumulate. by rewrite accumulate_from, append_empty_l.
Qed.

(** [get_jd_match_from_gemini], whatever the arguments: one request, then the
    error report exactly when [None] is returned. *)
Lemma get_jd_match_shape (jd text : string) s :
  let r := get_jd_match_from_gemini jd text s in
  heap (snd r) = heap s
  /\ session_results (snd r) = session_results s
  /\ world (snd r) = snd (gemini_score jd text (world s))
  /\ match fst r with
     | Some a =>
         trace (snd r) = trace s ++ [EvScorerCall jd text]
         /\ fst (gemini_score jd text (world s)) = Ok a
     | None =>
         exists e, trace (snd r) = trace s ++ [EvScorerCall jd text; model_error e]
                   /\ fst (gemini_score jd text (world s)) = Raise e
     end.
Proof.
  cbv zeta. unfold get_jd_match_from_gemini, bind, emit, external. simpl.
  destruct (gemini_score jd text (world s)) as [[a|e] w]; simpl.
  - by split_conj.
  - split_conj; [done | done | done |]. exists e. by rewrite <- app_assoc.
Qed.

(** X8.  One call of the scorer is one request to the provider for this job
    description and this text, never repeated: with an answer the analysis is
    returned and nothing is shown; with an exception [None] is returned and
    the error is shown.  No list and no session entry changes. *)
Theorem scorer_makes_one_request (jd text : string) s :
  let r := get_jd_match_from_gemini jd text s in
  heap (snd r) = heap s
  /\ session_results (snd r) = session_results s
  /\ List.filter external_call_b (new_events s (snd r)) = [EvScorerCall jd text]
  /\ match fst r with
     | Some a =>
         new_events s (snd r) = [EvScorerCall jd text]
         /\ fst (gemini_score jd text (world s)) = Ok a
     | None =>
         exists e, new_events s (snd r) = [EvScorerCall jd text; model_error e]
                   /\ fst (gemini_score jd text (world s)) = Raise e
     end.
Proof.
  destruct (get_jd_match_shape jd text s) as (Hh & Hs & _ & Hshape).
  cbv zeta. destruct (fst (get_jd_match_from_gemini jd text s)) as [a|].
  - destruct Hshape as [Ht Ha]. apply new_events_app in Ht.
    split_conj; [done | done | by rewrite Ht | done | done].
  - destruct Hshape as (e & Ht & He). apply new_events_app in Ht.
    split_conj; [done | done | by rewrite Ht |]. by exists e.
Qed.

(** ** The turn of a file, event by event *)

Lemma last_closing (x : Event) (l1 l2 : list Event) (c : Event) :
  last (x :: l1 ++ l2 ++ [c]) = Some c.
Proof. rewrite app_assoc. exact (last_snoc c (x :: l1 ++ l2)). Qed.

(** The three outcomes of a turn: what is appended, and what is shown. *)
Lemma process_file_outcome (jd : string) (nr : ref) (f : UploadedFile) s :
  let s' := snd (process_file jd nr f s) in
  session_results s' = session_results s
  /\ exists evs,
       trace s' = trace s ++ evs
       /\ turn_events jd f evs
       /\ ((exists a, last evs = Some (successfully_evaluated f)
                      /\ analysis_truthy a = true
                      /\ heap s' = alter (fun items => items ++
                                            [{| filename := file_name f; analysis := a |}])
                                         nr (heap s))
           \/ ((last evs = Some (could_not_analyse f)
                \/ last evs = Some (could_not_extract f))
               /\ heap s' = heap s)).
Proof.
  intros s'.
  destruct (get_file_text_shape f (at_extraction f s)) as (Hh1 & Hs1 & _ & report & Ht1 & Hr1).
  fold (extraction f s) in Hh1, Hs1, Ht1, Hr1. simpl in Hh1, Hs1, Ht1.
  assert (Hreport : report = [] \/ (exists e, report = [read_error f e])).
  { destruct (fst (extraction f s)); [by left | by right]. }
  assert (Hno_text : fst (extraction f s) = None \/ fst (extraction f s) = Some "" ->
    session_results s' = session_results s
    /\ exists evs, trace s' = trace s ++ evs /\ turn_events jd f evs
      /\ ((exists a, last evs = Some (successfully_evaluated f)
                     /\ analysis_truthy a = true
                     /\ heap s' = alter (fun items => items ++
                                           [{| filename := file_name f; analysis := a |}])
                                        nr (heap s))
          \/ ((last evs = Some (could_not_analyse f)
               \/ last evs = Some (could_not_extract f))
              /\ heap s' = heap s))).
  { intros Hno. subst s'. rewrite (process_file_no_text jd nr f s Hno). simpl.
    split; [done|].
    exists (processing f :: ocr_request f ++ report ++ [could_not_extract f]).
    split_conj.
    - rewrite Ht1. by rewrite <- !app_assoc.
    - by constructor.
    - right. split; [|done]. right. apply (last_closing _ _ report). }
  destruct (fst (extraction f s)) as [text|] eqn:Hext; [|by apply Hno_text; left].
  destruct (PyStr.truthy text) eqn:Htext;
    [|apply truthy_false in Htext as ->; by apply Hno_text; right].
  clear Hno_text. subst report. rewrite app_nil_r in Ht1.
  destruct (get_jd_match_shape jd text (snd (extraction f s))) as (Hh2 & Hs2 & _ & Hshape).
  set (scoring := get_jd_match_from_gemini jd text (snd (extraction f s))) in *.
  destruct (fst scoring) as [a|] eqn:Hsc; [destruct (analysis_truthy a) eqn:Ha|].
  - destruct Hshape as [Ht2 _]. subst s'.
    rewrite (process_file_scored jd nr f s text a Hext Htext Hsc Ha). fold scoring. simpl.
    split; [congruence|].
    exists (processing f :: ocr_request f ++ [EvScorerCall jd text; successfully_evaluated f]).
    split_conj.
    + rewrite Ht2, Ht1. by rewrite <- !app_assoc.
    + constructor.
    + left. exists a. split_conj; [|done | by rewrite Hh2, Hh1].
      apply (last_closing _ _ [EvScorerCall jd text]).
  - destruct Hshape as [Ht2 _]. subst s'.
    rewrite (process_file_no_analysis jd nr f s text Hext Htext)
      by (right; by exists a).
    fold scoring. simpl. split; [congruence|].
    exists (processing f :: ocr_request f
                       ++ EvScorerCall jd text :: [] ++ [could_not_analyse f]).
    split_conj.
    + rewrite Ht2, Ht1. by rewrite <- !app_assoc.
    + constructor. by left.
    + right. split; [|by rewrite Hh2, Hh1]. left.
      apply (last_closing _ _ [EvScorerCall jd text]).
  - destruct Hshape as (e & Ht2 & _). subst s'.
    rewrite (process_file_no_analysis jd nr f s text Hext Htext) by (by left).
    fold scoring. simpl. split; [congruence|].
    exists (processing f :: ocr_request f
                       ++ EvScorerCall jd text :: [model_error e] ++ [could_not_analyse f]).
    split_conj.
    + rewrite Ht2, Ht1. by rewrite <- !app_assoc.
    + constructor. right. by exists e.
    + right. split; [|by rewrite Hh2, Hh1]. left.
      apply (last_closing _ _ [EvScorerCall jd text; model_error e]).
Qed.

Lemma for_each_turns (jd : string) (nr : ref) (files : list UploadedFile) s :
  exists evss,
    Forall2 (turn_events jd) files evss
    /\ trace (snd (for_each files (process_file jd nr) s)) = trace s ++ concat evss.
Proof.
  revert s. induction files as [|f files IH]; intros s.
  - exists []. split; [constructor | by rewrite app_nil_r].
  - simpl. unfold bind.
    destruct (process_file_outcome jd nr f s) as (_ & evs & Ht & Hturn & _).
    destruct (process_file jd nr f s) as [[] s1]. simpl in Ht.
    destruct (IH s1) as (evss & Hturns & Hts).
    exists (evs :: evss). split; [by constructor|].
    by rewrite Hts, Ht, <- app_assoc.
Qed.

(** The trace of a run that passes the validation. *)
Lemma evaluate_resumes_log (jd : string) (files : list UploadedFile) s :
  jd <> "" -> files <> [] ->
  exists evss,
    Forall2 (turn_events jd) files evss
    /\ new_events s (snd (evaluate_resumes jd files s))
       = EvSpinner ("Evaluating " +:+ pretty (length files) +:+ " resume(s)...")
           :: concat evss.
Proof.
  intros Hjd Hfiles. unfold evaluate_resumes.
  assert (PyStr.truthy jd = true) as -> by (by destruct jd).
  rewrite bool_decide_eq_false_2 by done. simpl. unfold bind. simpl.
  match goal with |- context [for_each files ?body ?s1] =>
    destruct (for_each_turns jd (fresh (dom (heap s))) files s1) as (evss & Hturns & Ht);
    destruct (for_each files body s1) as [[] s2]
  end.
  simpl in *. exists evss. split; [done|].
  apply new_events_app. by rewrite Ht, <- app_assoc.
Qed.

Lemma turn_events_counts (jd : string) (f : UploadedFile) (evs : list Event) :
  turn_events jd f evs ->
  List.filter info_b evs = [processing f]
  /\ List.filter ocr_call_b evs = ocr_request f
  /\ (length (List.filter scorer_call_b evs) <= 1)%nat.
Proof.
  assert (Hocr : List.filter info_b (ocr_request f) = []
                 /\ List.filter ocr_call_b (ocr_request f) = ocr_request f
                 /\ List.filter scorer_call_b (ocr_request f) = []).
  { unfold ocr_request. by destruct (bool_decide _). }
  destruct Hocr as (Hocr1 & Hocr2 & Hocr3).
  destruct 1 as [report [-> | [e ->]] | text report [-> | [e ->]] | text];
    cbn [List.filter info_b ocr_call_b scorer_call_b processing];
    rewrite !List.filter_app, ?Hocr1, ?Hocr2, ?Hocr3; simpl;
    rewrite ?app_nil_r; split_conj; done || lia.
Qed.

Lemma turns_counts (jd : string) (files : list UploadedFile) (evss : list (list Event)) :
  Forall2 (turn_events jd) files evss ->
  List.filter info_b (concat evss) = map processing files
  /\ List.filter ocr_call_b (concat evss) = concat (map ocr_request files)
  /\ (length (List.filter scorer_call_b (concat evss)) <= length files)%nat.
Proof.
  induction 1 as [|f evs files evss Hturn _ (IH1 & IH2 & IH3)]; [done|].
  destruct (turn_events_counts jd f evs Hturn) as (H1 & H2 & H3).
  simpl. rewrite !List.filter_app, H1, H2, IH1, IH2, length_app.
  split_conj; [done | done | lia].
Qed.

(** X9.  The log of an evaluation run: after the spinner line, every file has
    its own stretch of the log, in upload order, of one of three shapes - the
    announcement, the OCR request for an image, and then either the
    could-not-extract warning (after the error report, if extraction raised),
    or the scorer request and the could-not-analyse error (after the model
    error, if the scorer raised), or the scorer request and the success line.
    A failure of one file never ends the batch. *)
Theorem run_log_protocol (jd : string) (files : list UploadedFile) s :
  jd <> "" -> files <> [] ->
  exists evss,
    Forall2 (turn_events jd) files evss
    /\ new_events s (snd (evaluate_resumes jd files s))
       = EvSpinner ("Evaluating " +:+ pretty (length files) +:+ " resume(s)...")
           :: concat evss.
Proof. apply evaluate_resumes_log. Qed.

(** X10.  In an evaluation run every file is announced exactly once, in upload
    order; OCR is requested exactly once for every image file and for no other
    file; and the scorer is requested at most once per file: nothing is
    retried.  Per file: the log after the spinner line is cut into one stretch
    per file, in upload order, each opening with the announcement of its file
    and holding no other announcement, the OCR request of that file alone, and
    at most one scorer request. *)
Theorem run_call_counts (jd : string) (files : list UploadedFile) s :
  jd <> "" -> files <> [] ->
  let evs := new_events s (snd (evaluate_resumes jd files s)) in
  List.filter info_b evs = map processing files
  /\ List.filter ocr_call_b evs = concat (map ocr_request files)
  /\ (length (List.filter scorer_call_b evs) <= length files)%nat
  /\ exists turns,
       evs = EvSpinner ("Evaluating " +:+ pretty (length files) +:+ " resume(s)...")
               :: concat turns
       /\ Forall2 turn_calls files turns.
Proof.
  intros Hjd Hfiles evs.
  destruct (evaluate_resumes_log jd files s Hjd Hfiles) as (evss & Hturns & Hevs).
  subst evs. rewrite Hevs.
  destruct (turns_counts jd files evss Hturns) as (Hinfo & Hocr & Hscorer).
  split_conj; [done | done | done |].
  exists evss. split; [done|].
  apply (Forall2_impl _ _ _ _ Hturns). intros f turn Hturn. split.
  - by destruct Hturn.
  - by apply (turn_events_counts jd).
Qed.

(** X11.  What the turn of a file shows last tells what it did: after the
    success line exactly one result, named after the file and with a non-empty
    analysis, has been appended to the new list; after the could-not-analyse
    error or the could-not-extract warning no list has changed.  No turn ends
    in any other way. *)
Theorem turn_feedback_matches_outcome (jd : string) (nr : ref) (f : UploadedFile) s
        (items : list ScreeningResult) :
  heap s !! nr = Some items ->
  let s' := snd (process_file jd nr f s) in
  (last (new_events s s') = Some (successfully_evaluated f)
   /\ exists a, analysis_truthy a = true
                /\ heap s' !! nr
                   = Some (items ++ [{| filename := file_name f; analysis := a |}])
                /\ forall l, l <> nr -> heap s' !! l = heap s !! l)
  \/ ((last (new_events s s') = Some (could_not_analyse f)
       \/ last (new_events s s') = Some (could_not_extract f))
      /\ heap s' = heap s).
Proof.
  intros Hitems s'.
  destruct (process_file_outcome jd nr f s) as (_ & evs & Ht & _ & Hout).
  fold s' in Ht, Hout. rewrite (new_events_app s s' evs Ht).
  destruct Hout as [(a & Hlast & Ha & Hheap) | [Hlast Hheap]]; [left | by right].
  split; [done|]. exists a. split_conj; [done | |].
  - by rewrite Hheap, lookup_alter_eq, Hitems.
  - intros l Hl. by rewrite Hheap, lookup_alter_ne.
Qed.

(** X12.  After an evaluation run every result of the ResultSet has a
    non-empty analysis and bears the name of one of the uploaded files, and
    there are at most as many results as files. *)
Theorem run_results_are_well_formed (jd : string) (files : list UploadedFile) s :
  jd <> "" -> files <> [] ->
  let results := result_set (snd (evaluate_resumes jd files s)) in
  Forall (fun r => analysis_truthy (analysis r) = true
                   /\ exists f, In f files /\ filename r = file_name f) results
  /\ (length results <= length files)%nat.
Proof.
  intros Hjd Hfiles results.
  destruct (evaluate_resumes_run jd files s Hjd Hfiles)
    as (cs & evs & Hcs & Hsess & Hnr & _).
  assert (Hrs : results = concat cs).
  { subst results. unfold result_set. by rewrite Hsess, Hnr. }
  rewrite Hrs. clear -Hcs.
  induction Hcs as [|f c files cs Hc _ [IH1 IH2]]; [by split|].
  simpl. rewrite length_app. split.
  - apply Forall_app. split.
    + destruct Hc as [-> | (text & a & s1 & w & -> & _ & _ & _ & Ha)]; [constructor|].
      repeat constructor; [done|]. exists f. split; [by left | done].
    + eapply Forall_impl; [exact IH1|]. intros r (Hr & f' & Hin & Hname).
      split; [done|]. exists f'. split; [by right | done].
  - assert (length c <= 1)%nat
      by (destruct Hc as [-> | (text & a & s1 & w & -> & _)]; simpl; lia).
    lia.
Qed.

Lemma contributes_nothing (jd : string) (files : list UploadedFile)
      (cs : list (list ScreeningResult)) :
  Forall2 (contributes (W:=W) jd) files cs ->
  (forall f (s0 : @AppState W), In f files ->
     fst (get_file_text f s0) = None \/ fst (get_file_text f s0) = Some "") ->
  concat cs = [].
Proof.
  induction 1 as [|f c files cs Hc _ IH]; intros Hnone; [done|]. simpl.
  rewrite IH by (intros f' s0 Hf'; apply Hnone; by right).
  destruct Hc as [-> | (text & a & s1 & w & _ & Hext & Htext & _)]; [done|].
  destruct (Hnone f s1 (or_introl eq_refl)) as [H | H];
    rewrite H in Hext; [discriminate|].
  injection Hext as <-. discriminate.
Qed.

(** X13.  When no file of the batch yields a text, the run still replaces the
    ResultSet: it is empty afterwards, whatever it held before, and the scorer
    has not been called at all. *)
Theorem run_without_any_text_clears_results (jd : string) (files : list UploadedFile) s :
  jd <> "" -> files <> [] ->
  (forall f s0, In f files ->
                fst (get_file_text f s0) = None \/ fst (get_file_text f s0) = Some "") ->
  let s' := snd (evaluate_resumes jd files s) in
  result_set s' = []
  /\ List.filter scorer_call_b (new_events s s') = [].
Proof.
  intros Hjd Hfiles Hnone s'.
  destruct (evaluate_resumes_run jd files s Hjd Hfiles)
    as (cs & evs & Hcs & Hsess & Hnr & _ & Ht & Hcalls).
  fold s' in Hsess, Hnr, Ht. split.
  - unfold result_set. rewrite Hsess, Hnr. simpl.
    by apply (contributes_nothing jd files).
  - rewrite (new_events_app s s' evs Ht). clear -Hcalls Hnone.
    induction Hcalls as [|e evs He _ IH]; [done|]. simpl. rewrite IH.
    destruct e; try done. simpl in He.
    destruct He as (_ & Htext & f & s1 & Hin & Hext).
    destruct (Hnone f s1 Hin) as [H | H]; rewrite H in Hext; [discriminate|].
    injection Hext as <-. discriminate.
Qed.

(** ** Runs without an evaluation make no request *)

#[local] Instance no_external_calls_preorder : PreOrder (@no_external_calls W).
Proof.
  split.
  - intros s. split; [done|]. exists []. split; [by rewrite app_nil_r | constructor].
  - intros s1 s2 s3 (Hw & evs & Ht & He) (Hw' & evs' & Ht' & He').
    split; [congruence|]. exists (evs ++ evs').
    split; [by rewrite Ht', Ht, app_assoc | by apply Forall_app].
Qed.

Lemma emit_no_external_calls (e : Event) :
  ~ is_external_call e -> keeps (W:=W) no_external_calls (emit e).
Proof.
  intros He s. split; [done|]. exists [e]. split; [done | by constructor].
Qed.

Lemma silent_no_external_calls {A} (c : App A) :
  (forall s, world (snd (c s)) = world s /\ trace (snd (c s)) = trace s) ->
  keeps (W:=W) no_external_calls c.
Proof.
  intros Hc s. destruct (Hc s) as [Hw Ht]. split; [done|].
  exists []. split; [by rewrite app_nil_r | constructor].
Qed.

Ltac quiet_step :=
  first [ apply emit_no_external_calls; intros []
        | apply silent_no_external_calls; by intros ?
        | frame_step ].

Lemma screening_evaluation_no_external_calls (inp : Inputs) :
  keeps (W:=W) no_external_calls (screening_evaluation inp).
Proof.
  unfold screening_evaluation, filter_and_display, show_display, show_result.
  cbv zeta. repeat quiet_step.
Qed.

(** X14.  A run of the script that starts no evaluation - the button is not
    clicked, or the job description or the file list is empty - makes no
    request to the provider: changing a filter control never costs a call. *)
Theorem no_request_without_evaluation (inp : Inputs) s :
  evaluate_clicked inp = false \/ job_description inp = "" \/ uploaded_files inp = [] ->
  let s' := snd (script inp s) in
  world s' = world s
  /\ List.filter external_call_b (new_events s s') = [].
Proof.
  intros Hno s'.
  assert (Hside : keeps (W:=W) no_external_calls (sidebar inp)).
  { unfold sidebar. repeat quiet_step. unfold evaluate_resumes.
    destruct Hno as [Hno | [-> | ->]]; [discriminate | |].
    - simpl. quiet_step.
    - rewrite bool_decide_eq_true_2, andb_false_r by done. quiet_step. }
  assert (Hrun : no_external_calls s s').
  { subst s'. revert s. change (keeps (W:=W) no_external_calls (script inp)).
    unfold script, init_session.
    repeat first [ exact Hside | apply screening_evaluation_no_external_calls
                 | quiet_step ]. }
  destruct Hrun as (Hw & evs & Ht & He). split; [done|].
  rewrite (new_events_app s s' evs Ht). by apply filter_external_none.
Qed.

(** ** The session entry over whole runs *)

#[local] Instance session_kept_preorder : PreOrder (@session_kept W).
Proof.
  split.
  - intros s Hs. split; [done | reflexivity].
  - intros s1 s2 s3 H12 H23 Hs1.
    destruct (H12 Hs1) as [Hs2 Hl12]. destruct (H23 Hs2) as [Hs3 Hl23].
    split; [done | by etrans].
Qed.

Lemma read_only_session_kept s s' : read_only s s' -> session_kept s s'.
Proof.
  intros Hro [Hok Hsome].
  destruct (read_only_results_untouched s s' Hro Hok) as (Hok' & Hkept & _ & Hsess).
  split; [|done]. split; [done|].
  destruct Hsome as [l Hl]. rewrite (Hsess l Hl). by eexists.
Qed.

Lemma evaluate_resumes_session_kept (jd : string) (files : list UploadedFile) :
  keeps (W:=W) session_kept (evaluate_resumes jd files).
Proof.
  intros s.
  destruct (decide (jd = "")) as [-> | Hjd];
    [|destruct (decide (files = [])) as [-> | Hfiles]].
  - apply read_only_session_kept. unfold evaluate_resumes. simpl. apply emit_read_only.
  - apply read_only_session_kept. unfold evaluate_resumes.
    rewrite bool_decide_eq_true_2, andb_false_r by done. apply emit_read_only.
  - intros [Hok _].
    destruct (evaluate_resumes_run jd files s Hjd Hfiles)
      as (cs & evs & _ & Hsess & Hnr & Hl & _).
    split; [split|].
    + intros l. rewrite Hsess. intros [= <-]. rewrite Hnr. by eexists.
    + rewrite Hsess. by eexists.
    + intros l Hsome. apply Hl. intros ->.
      apply (is_fresh (dom (heap s))). by apply elem_of_dom.
Qed.

(** X15.  Over a whole run of the script, with any inputs, the session keeps
    a results entry that refers to an existing list, and no list object that
    existed before the run is changed: an evaluation writes to a list of its
    own, so the previous ResultSet list is still intact when the entry is
    rebound. *)
Theorem script_keeps_session_and_lists (inp : Inputs) s :
  session_ok s ->
  let s' := snd (script inp s) in
  session_ok s' /\ is_Some (session_results s') /\ lists_kept s s'.
Proof.
  intros Hok s'.
  assert (Hrest : forall c : App Status,
             keeps (W:=W) session_kept c ->
             forall s0, session_ok s0 ->
               let s1 := snd (bind init_session (fun _ => c) s0) in
               session_ok s1 /\ is_Some (session_results s1) /\ lists_kept s0 s1).
  { intros c Hc s0 Hok0 s1. subst s1. unfold bind.
    destruct (init_session_results_untouched s0 Hok0) as (Hok1 & Hkept1 & _ & _).
    assert (Hsome1 : is_Some (session_results (snd (init_session s0)))).
    { unfold init_session, bind, session_get.
      destruct (session_results s0) eqn:Hs0; simpl; [rewrite Hs0|]; by eexists. }
    destruct (init_session s0) as [[] s1]. simpl in *.
    destruct (Hc s1 (conj Hok1 Hsome1)) as [[Hok2 Hsome2] Hkept2].
    split_conj; [done | done | by etrans]. }
  assert (Hemit : forall e s0, session_ok s0 ->
             session_ok (snd (emit e s0)) /\ lists_kept s0 (snd (emit e s0))).
  { intros e s0 Hok0.
    destruct (read_only_results_untouched s0 _ (emit_read_only e s0) Hok0)
      as (Hok1 & Hkept1 & _). by split. }
  subst s'. unfold script. rewrite !bind_emit.
  destruct (Hemit (EvTitle "📄 AI Resume Screener") s Hok) as [Hok1 Hk1].
  set (s1 := snd (emit (EvTitle "📄 AI Resume Screener") s)) in *.
  destruct (Hemit (EvMarkdown "Evaluate multiple resumes against a job description to find the best candidates.") s1 Hok1) as [Hok2 Hk2].
  set (s2 := snd (emit (EvMarkdown _) s1)) in *.
  destruct (Hemit EvDivider s2 Hok2) as [Hok3 Hk3].
  set (s3 := snd (emit EvDivider s2)) in *.
  match goal with |- context [bind init_session ?k s3] =>
    destruct (Hrest (k tt)) with (s0 := s3) as (Hok4 & Hsome4 & Hk4); [|done|]
  end.
  - assert (Hro : forall A (c : App A), keeps (W:=W) read_only c -> keeps session_kept c)
      by (intros A c; apply keeps_weaken, read_only_session_kept).
    unfold sidebar.
    repeat first [ apply evaluate_resumes_session_kept
                 | apply Hro;
                   first [ apply emit_read_only | apply screening_evaluation_read_only ]
                 | frame_step ].
  - split_conj; [done | done |]. etrans; [exact Hk1|]. etrans; [exact Hk2|]. by etrans.
Qed.

(** ** What the display shows *)

(** [filter_and_display] renders the three filter controls and then shows the
    outcome of the pipeline. *)
Lemma filter_and_display_trace (results : ref) (inp : Inputs) s
      (items : list ScreeningResult) :
  heap s !! results = Some items ->
  exists s1,
    trace s1 = trace s ++ filter_controls
    /\ filter_and_display results inp s
       = show_display
           (View.sorted_results
              (View.filtered_results items (target_location inp) (min_score inp))) s1.
Proof.
  intros Hitems. unfold filter_and_display, View.sorted_results, View.filtered_results.
  cbv zeta. rewrite !bind_emit.
  destruct (PyStr.truthy (target_location inp)).
  - rewrite bind_assoc_at, (bind_list_items results _ _ items) by done.
    rewrite !bind_list_new_items.
    eexists. split; [|reflexivity]. simpl. by rewrite <- !app_assoc.
  - unfold bind at 1. unfold ret at 1.
    rewrite (bind_list_items results _ _ items) by done.
    rewrite !bind_list_new_items.
    eexists. split; [|reflexivity]. simpl. by rewrite <- !app_assoc.
Qed.

Lemma show_display_trace (displayed : list ScreeningResult) s :
  exists evs,
    trace (snd (show_display displayed s)) = trace s ++ evs
    /\ match displayed with
       | [] => evs = [no_matches]
       | _ :: _ => exists cards, evs = download_header displayed ++ cards
       end.
Proof.
  unfold show_display. destruct displayed as [|r displayed].
  - simpl. by exists [no_matches].
  - rewrite bool_decide_eq_false_2 by done. cbn [negb]. rewrite !bind_emit.
    match goal with |- context [for_each ?l ?body ?s1] =>
      destruct (keeps_for_each read_only l body) with (s := s1)
        as (_ & _ & _ & cards & Hcards)
    end.
    + intros r'. apply show_result_read_only.
    + eexists. split; [|by exists cards]. rewrite Hcards. simpl.
      by rewrite <- !app_assoc.
Qed.

(** X16.  The part below the sidebar has three states.  With an empty
    ResultSet it shows the no-results-yet line and neither filter controls nor
    a download.  With results of which the filter keeps none, it shows the
    filter controls and the no-matches warning, and no download.  Otherwise it
    shows the filter controls, the download of the export of exactly the
    displayed results, the divider and the count of displayed results, and then
    the cards. *)
Theorem display_has_three_states (inp : Inputs) s (l : ref)
        (items : list ScreeningResult) :
  session_results s = Some l -> heap s !! l = Some items ->
  let displayed :=
    View.sorted_results
      (View.filtered_results items (target_location inp) (min_score inp)) in
  let evs := new_events s (snd (screening_evaluation inp s)) in
  match items, displayed with
  | [], _ => evs = [evaluation_header; no_results_yet]
  | _ :: _, [] => evs = evaluation_header :: filter_controls ++ [no_matches]
  | _ :: _, _ :: _ =>
      exists cards,
        evs = evaluation_header :: filter_controls ++ download_header displayed ++ cards
  end.
Proof.
  intros Hsess Hitems displayed evs. subst evs.
  set (s0 := snd (emit (EvSubheader "3. Screening Evaluation") s)).
  assert (Hitems0 : heap s0 !! l = Some items) by done.
  assert (Ht0 : trace s0 = trace s ++ [evaluation_header]) by done.
  assert (Hrun : screening_evaluation inp s
                 = (if negb (bool_decide (items = []))
                    then filter_and_display l inp else emit no_results_yet) s0).
  { unfold screening_evaluation. rewrite bind_emit. fold s0.
    unfold bind at 1. unfold session_get at 1.
    replace (session_results s0) with (Some l) by done.
    by rewrite (bind_list_items l _ s0 items Hitems0). }
  rewrite Hrun. clear Hrun.
  destruct items as [|r items].
  - simpl. apply new_events_app. by rewrite <- app_assoc.
  - rewrite bool_decide_eq_false_2 by done. cbn [negb].
    destruct (filter_and_display_trace l inp s0 (r :: items) Hitems0)
      as (s1 & Ht1 & ->).
    fold displayed.
    destruct (show_display_trace displayed s1) as (tail & Ht2 & Htail).
    destruct displayed as [|d displayed'].
    + subst tail. apply new_events_app. rewrite Ht2, Ht1, Ht0.
      by rewrite <- !app_assoc.
    + destruct Htail as [cards ->]. exists cards. apply new_events_app.
      rewrite Ht2, Ht1, Ht0. by rewrite <- !app_assoc.
Qed.

(** ** The script as a whole *)

(** A run with the API key: the sidebar block, then the display. *)
Lemma script_with_key (inp : Inputs) s (api_key : string) :
  secrets inp !! "GOOGLE_API_KEY" = Some api_key ->
  script inp s
  = (Completed,
     snd (screening_evaluation inp
            (snd ((if evaluate_clicked inp
                   then evaluate_resumes (job_description inp) (uploaded_files inp)
                   else ret tt) (at_button api_key s))))).
Proof.
  intros Hkey. unfold script, sidebar, at_button. rewrite Hkey.
  simpl. unfold bind. simpl.
  destruct (init_session _) as [[] s2]. simpl.
  destruct (evaluate_clicked inp).
  - destruct (evaluate_resumes _ _ _) as [[] s3]. simpl.
    by destruct (screening_evaluation inp s3) as [[] s4].
  - simpl. by destruct (screening_evaluation inp _) as [[] s4].
Qed.

Lemma at_button_trace (api_key : string) s :
  trace (at_button api_key s)
  = trace s ++ page_header ++ EvConfigure api_key :: sidebar_widgets.
Proof.
  unfold at_button. simpl. unfold bind. simpl.
  assert (Hinit : forall s0 : @AppState W, trace (snd (init_session s0)) = trace s0).
  { intros s0. unfold init_session, bind, session_get.
    by destruct (session_results s0). }
  rewrite Hinit. simpl. by rewrite <- !app_assoc.
Qed.

Lemma evaluate_resumes_extends (jd : string) (files : list UploadedFile) s :
  exists evs, trace (snd (evaluate_resumes jd files s)) = trace s ++ evs.
Proof.
  destruct (decide (jd = "")) as [-> | Hjd];
    [|destruct (decide (files = [])) as [-> | Hfiles]].
  - by eexists.
  - unfold evaluate_resumes. rewrite bool_decide_eq_true_2, andb_false_r by done.
    by eexists.
  - destruct (evaluate_resumes_run jd files s Hjd Hfiles) as (_ & evs & _ & _ & _ & _ & Ht & _).
    by exists evs.
Qed.

(** X17.  The API key alone decides whether a run completes: without it the
    run stops, with it the run completes, whatever else the inputs are; and a
    run with the key configures the provider with that key before it renders
    the sidebar, whose five elements always appear. *)
Theorem run_completes_iff_key (inp : Inputs) s :
  (fst (script inp s) = Completed <-> is_Some (secrets inp !! "GOOGLE_API_KEY"))
  /\ (forall api_key,
        secrets inp !! "GOOGLE_API_KEY" = Some api_key ->
        exists rest,
          new_events s (snd (script inp s))
          = page_header ++ EvConfigure api_key :: sidebar_widgets ++ rest).
Proof.
  split.
  - destruct (secrets inp !! "GOOGLE_API_KEY") as [api_key|] eqn:Hkey.
    + rewrite (script_with_key inp s api_key Hkey). simpl. split; [by eexists | done].
    + split; [|by intros []].
      unfold script, bind. rewrite Hkey. simpl.
      destruct (init_session _) as [[] s2]. simpl. discriminate.
  - intros api_key Hkey. rewrite (script_with_key inp s api_key Hkey). simpl.
    pose proof (at_button_trace api_key s) as Ht.
    set (s1 := at_button api_key s) in *.
    assert (Hside : exists evs,
               trace (snd ((if evaluate_clicked inp
                            then evaluate_resumes (job_description inp) (uploaded_files inp)
                            else ret tt) s1)) = trace s1 ++ evs).
    { destruct (evaluate_clicked inp); [apply evaluate_resumes_extends|].
      exists []. by rewrite app_nil_r. }
    destruct Hside as (evs1 & Ht1).
    set (s2 := snd (_ s1)) in *.
    destruct (screening_evaluation_read_only inp s2) as (_ & _ & _ & evs2 & Ht2).
    exists (evs1 ++ evs2). apply new_events_app.
    rewrite Ht2, Ht1, Ht. by rewrite <- !app_assoc.
Qed.

(** X18.  In a run with the key, a click and a non-empty job description and
    file list, the display works on the new ResultSet: the script ends with
    the display block run in the state the evaluation left, in which the
    session entry refers to the list the evaluation filled; the display leaves
    that ResultSet as it is, and it consists of what the files contributed, in
    upload order. *)
Theorem display_follows_evaluation (inp : Inputs) s (api_key : string) :
  secrets inp !! "GOOGLE_API_KEY" = Some api_key ->
  evaluate_clicked inp = true ->
  job_description inp <> "" -> uploaded_files inp <> [] ->
  let evaluated :=
    snd (evaluate_resumes (job_description inp) (uploaded_files inp) (at_button api_key s)) in
  let s' := snd (script inp s) in
  s' = snd (screening_evaluation inp evaluated)
  /\ (exists l, session_results evaluated = Some l
                /\ heap evaluated !! l = Some (result_set evaluated))
  /\ result_set s' = result_set evaluated
  /\ exists cs, Forall2 (contributes (W:=W) (job_description inp)) (uploaded_files inp) cs
                /\ result_set s' = concat cs.
Proof.
  intros Hkey Hclick Hjd Hfiles evaluated s'.
  assert (Hs' : s' = snd (screening_evaluation inp evaluated)).
  { subst s' evaluated. rewrite (script_with_key inp s api_key Hkey). by rewrite Hclick. }
  destruct (evaluate_resumes_run (job_description inp) (uploaded_files inp)
              (at_button api_key s) Hjd Hfiles)
    as (cs & evs & Hcs & Hsess & Hnr & _).
  fold evaluated in Hsess, Hnr.
  assert (Hrs : result_set evaluated = concat cs).
  { unfold result_set. by rewrite Hsess, Hnr. }
  assert (Hok : session_ok evaluated).
  { intros l Hl. rewrite Hsess in Hl. injection Hl as Hl. subst l.
    exists (concat cs). exact Hnr. }
  assert (Hsame : result_set s' = result_set evaluated).
  { rewrite Hs'.
    by destruct (read_only_results_untouched _ _
                   (screening_evaluation_read_only inp evaluated) Hok) as (_ & _ & ? & _). }
  split_conj; [done | | done |].
  - eexists. split; [exact Hsess|]. rewrite Hrs. exact Hnr.
  - exists cs. split; [done|]. by rewrite Hsame.
Qed.

End AppFacts.

(* ===================================================================== *)
(** * The scenarios, and the claims at concrete inputs *)
(* ===================================================================== *)

Example file_extension_examples {unicode : Unicode} :
  map (fun n => file_extension (sample_file n ""))
      ["Resume.Final.PDF"; "README"; "notes."; "cv.DocX"; ".jpeg"]
  = ["pdf"; "readme"; ""; "docx"; "jpeg"].
Proof.
  unfold file_extension. cbn [map sample_file file_name].
  repeat (rewrite str_lower_ascii by reflexivity). reflexivity.
Qed.

Example lower_example {unicode : Unicode} :
  str_lower "HyDer-Abad, TX 42" = "hyder-abad, tx 42".
Proof. by rewrite str_lower_ascii. Qed.

(** The sample files, locations and filters below are ASCII text, on which
    the class [Unicode] leaves [str.lower] no freedom; the scenarios are run
    with that lowering. *)
#[export] Instance ascii_runtime : Unicode.
Proof.
  refine {| str_lower := PyStr.ascii_lower |}.
  - reflexivity.
  - by intros [|c s].
Defined.

Example contains_examples :
  PyStr.contains "hyder" "hyderabad" = true
  /\ PyStr.contains "" "" = true
  /\ PyStr.contains "abad" "hyderabad" = true
  /\ PyStr.contains "hyd er" "hyderabad" = false.
Proof. repeat split. Qed.

Example scenario_min_score_70 :
  View.sorted_results (View.filtered_results scenario_results "" 70) = [scenario_A; scenario_C].
Proof. reflexivity. Qed.

Example scenario_hyder :
  View.sorted_results (View.filtered_results scenario_results "hyder" 0) = [scenario_B].
Proof. vm_compute. reflexivity. Qed.

Example scenario_sort_all :
  View.sorted_results
    (View.filtered_results (scenario_B :: scenario_results) "" 0)
  = [scenario_A; scenario_C; scenario_B; scenario_B].
Proof. vm_compute. reflexivity. Qed.

Example sample_run_result_set :
  result_set (snd (evaluate_resumes sample_jd sample_files sample_state))
  = [{| filename := "alice.txt"; analysis := canned_analysis "Python developer" |}].
Proof. vm_compute. reflexivity. Qed.

Example sample_run_scorer_calls :
  List.filter (fun e => match e with EvScorerCall _ _ => true | _ => false end)
              (trace (snd (evaluate_resumes sample_jd sample_files sample_state)))
  = [EvScorerCall sample_jd "quota"; EvScorerCall sample_jd "Python developer"].
Proof. vm_compute. reflexivity. Qed.

Lemma table_csv_unsupported : ~ In (file_extension table_csv) supported_extensions.
Proof. vm_compute. intuition discriminate. Qed.


(** A click on the button with nothing filled in. *)
Lemma C5_validation_rejects_witness :
  (job_description (sample_inputs true "" 70) = "" \/ uploaded_files (sample_inputs true "" 70) = [])
  /\ evaluate_resumes "" [] sample_state = emit validation_message sample_state.
Proof.
  assert (Hbad : job_description (sample_inputs true "" 70) = ""
                 \/ uploaded_files (sample_inputs true "" 70) = []) by (left; reflexivity).
  split; [exact Hbad|].
  exact (proj1 (C5_validation_rejects (sample_inputs true "" 70) sample_state Hbad)).
Defined.

(** A csv file among the uploads. *)
Lemma C6_unsupported_extension_witness :
  ~ In (file_extension table_csv) supported_extensions
  /\ forall s : @AppState nat, get_file_text table_csv s = (Some "", s).
Proof.
  split; [exact table_csv_unsupported|].
  exact (proj1 (C6_unsupported_extension table_csv table_csv_unsupported)).
Defined.

(** The claim as worded asks for a failure of the extractor; for the csv file
    the extractor returns a text, the empty one, and reports nothing. *)
Lemma C6_counterexample :
  ~ In (file_extension table_csv) supported_extensions
  /\ get_file_text table_csv sample_state = (Some "", sample_state)
  /\ fst (get_file_text table_csv sample_state) <> None.
Proof.
  split; [exact table_csv_unsupported|]. split; [reflexivity | discriminate].
Qed.

(** A docx file with the two paragraphs "Jane" and "Doe". *)
Lemma C7_docx_text_witness :
  file_extension jane_docx = "docx"
  /\ docx_paragraphs (file_data jane_docx) = Ok ["Jane"; "Doe"]
  /\ get_file_text jane_docx sample_state
     = (Some (newline_terminated ["Jane"; "Doe"]), sample_state).
Proof.
  assert (Hext : file_extension jane_docx = "docx") by reflexivity.
  assert (Hdoc : docx_paragraphs (file_data jane_docx) = Ok ["Jane"; "Doe"]) by reflexivity.
  split; [exact Hext|]. split; [exact Hdoc|].
  exact (proj1 (C7_docx_text jane_docx ["Jane"; "Doe"] sample_state Hext Hdoc)).
Defined.

(** The claim as worded gives the paragraphs joined by newlines; the script
    ends the text with one more newline. *)
Lemma C7_counterexample :
  file_extension jane_docx = "docx"
  /\ docx_paragraphs (file_data jane_docx) = Ok ["Jane"; "Doe"]
  /\ fst (get_file_text jane_docx sample_state) = Some ("Jane" +:+ nl +:+ "Doe" +:+ nl)
  /\ fst (get_file_text jane_docx sample_state) <> Some (PyStr.join nl ["Jane"; "Doe"]).
Proof.
  split; [reflexivity|]. split; [reflexivity|]. split; [reflexivity|].
  vm_compute. discriminate.
Qed.

(** A run with empty secrets. *)
Lemma C8_missing_api_key_witness :
  let inp := {| secrets := ∅; job_description := sample_jd; uploaded_files := sample_files;
                evaluate_clicked := true; target_location := ""; min_score := 70 |} in
  secrets inp !! "GOOGLE_API_KEY" = None
  /\ fst (script inp sample_state) = Stopped
  /\ new_events sample_state (snd (script inp sample_state)) = missing_key_screen.
Proof.
  intros inp.
  assert (Hkey : secrets inp !! "GOOGLE_API_KEY" = None) by reflexivity.
  destruct (C8_missing_api_key inp sample_state Hkey) as (Hstop & Hscreen & _).
  exact (conj Hkey (conj Hstop Hscreen)).
Defined.

Lemma sample_state_ok : session_ok sample_state.
Proof. intros l [= <-]. by eexists. Qed.

(** Three changes of the filter controls in a row. *)
Lemma C9_view_has_no_side_effects_witness :
  let changes := [sample_inputs false "" 70; sample_inputs false "austin" 0;
                  sample_inputs false "" 100] in
  session_ok sample_state
  /\ Forall (fun inp => evaluate_clicked inp = false) changes
  /\ result_set (reruns changes sample_state) = result_set sample_state.
Proof.
  intros changes.
  assert (Hno : Forall (fun inp => evaluate_clicked inp = false) changes)
    by (repeat constructor).
  exact (conj sample_state_ok
           (conj Hno (proj1 (C9_view_has_no_side_effects changes sample_state
                               sample_state_ok Hno)))).
Defined.

(** An empty txt file. *)
Lemma C10_empty_text_is_skipped_witness :
  fst (extraction blank_txt sample_state) = Some ""
  /\ process_file sample_jd 0%nat blank_txt sample_state
     = emit (could_not_extract blank_txt) (snd (extraction blank_txt sample_state)).
Proof.
  assert (Hempty : fst (extraction blank_txt sample_state) = Some "") by reflexivity.
  split; [exact Hempty|].
  exact (proj1 (C10_empty_text_is_skipped sample_jd 0%nat blank_txt sample_state Hempty)).
Defined.

(* ===================================================================== *)
(** * The further properties at concrete inputs *)
(* ===================================================================== *)

Lemma filter_narrows_and_is_idempotent_witness :
  0 <= 70
  /\ sublist (View.filtered_results scenario_results "" 70)
             (View.filtered_results scenario_results "" 0).
Proof.
  assert (Hle : 0 <= 70) by lia.
  exact (conj Hle (proj1 (filter_narrows_and_is_idempotent scenario_results "" 0 70 Hle))).
Defined.

Lemma filter_on_missing_fields_witness :
  location (analysis bare_result) = None
  /\ "austin" <> ""
  /\ ~ In bare_result (View.filtered_results [bare_result; scenario_A] "austin" 0).
Proof.
  assert (Hloc : location (analysis bare_result) = None) by reflexivity.
  assert (Htarget : "austin" <> "") by discriminate.
  exact (conj Hloc (conj Htarget
           (proj1 (filter_on_missing_fields [bare_result; scenario_A] "austin" 0 bare_result)
                  Hloc Htarget))).
Defined.

Lemma file_extension_after_last_dot_witness :
  dotless "PDF" = true
  /\ file_extension (named ("Resume.Final" +:+ "." +:+ "PDF") "application/pdf" []) = "pdf"
  /\ file_extension (named "PDF" "application/pdf" []) = "pdf".
Proof.
  assert (Hext : dotless "PDF" = true) by reflexivity.
  assert (Hin : In "pdf" supported_extensions) by (left; reflexivity).
  assert (Heq : equal_ignoring_case "PDF" "pdf" = true) by reflexivity.
  exact (conj Hext
           (proj2 (proj2 (file_extension_after_last_dot
                            "Resume.Final" "PDF" "application/pdf" [] Hext))
                  "pdf" Hin Heq)).
Defined.

Lemma pdf_text_is_pages_joined_witness :
  file_extension cv_pdf = "pdf"
  /\ get_file_text cv_pdf sample_state = (Some "Jane Doe, Python", sample_state).
Proof.
  assert (Hext : file_extension cv_pdf = "pdf") by reflexivity.
  exact (conj Hext (pdf_text_is_pages_joined cv_pdf sample_state Hext)).
Defined.

Lemma run_log_protocol_witness :
  sample_jd <> "" /\ sample_files <> []
  /\ exists evss,
       Forall2 (turn_events sample_jd) sample_files evss
       /\ new_events sample_state (snd (evaluate_resumes sample_jd sample_files sample_state))
          = EvSpinner ("Evaluating " +:+ pretty (length sample_files) +:+ " resume(s)...")
              :: concat evss.
Proof.
  assert (Hjd : sample_jd <> "") by discriminate.
  assert (Hfiles : sample_files <> []) by discriminate.
  exact (conj Hjd (conj Hfiles (run_log_protocol sample_jd sample_files sample_state Hjd Hfiles))).
Defined.

Lemma run_call_counts_witness :
  sample_jd <> "" /\ (scan_png :: sample_files) <> []
  /\ List.filter ocr_call_b
       (new_events sample_state
          (snd (evaluate_resumes sample_jd (scan_png :: sample_files) sample_state)))
     = concat (map ocr_request (scan_png :: sample_files)).
Proof.
  assert (Hjd : sample_jd <> "") by discriminate.
  assert (Hfiles : (scan_png :: sample_files) <> []) by discriminate.
  exact (conj Hjd (conj Hfiles
           (proj1 (proj2 (run_call_counts sample_jd (scan_png :: sample_files) sample_state
                            Hjd Hfiles))))).
Defined.

Lemma turn_feedback_matches_outcome_witness :
  heap sample_state !! 0%nat = Some [earlier_result]
  /\ let s' := snd (process_file sample_jd 0%nat alice_txt sample_state) in
     last (new_events sample_state s') = Some (successfully_evaluated alice_txt)
     \/ heap s' = heap sample_state.
Proof.
  assert (Hitems : heap sample_state !! 0%nat = Some [earlier_result]) by reflexivity.
  split; [exact Hitems|].
  destruct (turn_feedback_matches_outcome sample_jd 0%nat alice_txt sample_state
              [earlier_result] Hitems) as [[Hlast _] | [_ Hheap]].
  - left. exact Hlast.
  - right. exact Hheap.
Defined.

Lemma run_results_are_well_formed_witness :
  sample_jd <> "" /\ sample_files <> []
  /\ (length (result_set (snd (evaluate_resumes sample_jd sample_files sample_state)))
      <= length sample_files)%nat.
Proof.
  assert (Hjd : sample_jd <> "") by discriminate.
  assert (Hfiles : sample_files <> []) by discriminate.
  exact (conj Hjd (conj Hfiles
           (proj2 (run_results_are_well_formed sample_jd sample_files sample_state
                     Hjd Hfiles)))).
Defined.

Lemma textless_files_give_no_text (f : UploadedFile) (s0 : @AppState nat) :
  In f textless_files ->
  fst (get_file_text f s0) = None \/ fst (get_file_text f s0) = Some "".
Proof.
  intros [<- | [<- | [<- | []]]]; [by right | by right | by left].
Qed.

Lemma run_without_any_text_clears_results_witness :
  sample_jd <> "" /\ textless_files <> []
  /\ (forall f (s0 : @AppState nat), In f textless_files ->
        fst (get_file_text f s0) = None \/ fst (get_file_text f s0) = Some "")
  /\ result_set (snd (evaluate_resumes sample_jd textless_files sample_state)) = [].
Proof.
  assert (Hjd : sample_jd <> "") by discriminate.
  assert (Hfiles : textless_files <> []) by discriminate.
  exact (conj Hjd (conj Hfiles (conj textless_files_give_no_text
           (proj1 (run_without_any_text_clears_results sample_jd textless_files sample_state
                     Hjd Hfiles textless_files_give_no_text))))).
Defined.

Lemma no_request_without_evaluation_witness :
  (evaluate_clicked (sample_inputs false "austin" 0) = false
   \/ job_description (sample_inputs false "austin" 0) = ""
   \/ uploaded_files (sample_inputs false "austin" 0) = [])
  /\ world (snd (script (sample_inputs false "austin" 0) sample_state)) = world sample_state.
Proof.
  assert (Hno : evaluate_clicked (sample_inputs false "austin" 0) = false
                \/ job_description (sample_inputs false "austin" 0) = ""
                \/ uploaded_files (sample_inputs false "austin" 0) = [])
    by (left; reflexivity).
  exact (conj Hno (proj1 (no_request_without_evaluation (sample_inputs false "austin" 0)
                            sample_state Hno))).
Defined.

Lemma script_keeps_session_and_lists_witness :
  session_ok sample_state
  /\ session_ok (snd (script evaluation_inputs sample_state))
  /\ lists_kept sample_state (snd (script evaluation_inputs sample_state)).
Proof.
  destruct (script_keeps_session_and_lists evaluation_inputs sample_state sample_state_ok)
    as (Hok & _ & Hkept).
  exact (conj sample_state_ok (conj Hok Hkept)).
Defined.

Lemma display_has_three_states_witness :
  session_results sample_state = Some 0%nat
  /\ heap sample_state !! 0%nat = Some [earlier_result]
  /\ new_events sample_state
       (snd (screening_evaluation (sample_inputs false "" 70) sample_state))
     = evaluation_header :: filter_controls ++ [no_matches].
Proof.
  assert (Hsess : session_results sample_state = Some 0%nat) by reflexivity.
  assert (Hitems : heap sample_state !! 0%nat = Some [earlier_result]) by reflexivity.
  exact (conj Hsess (conj Hitems
           (display_has_three_states (sample_inputs false "" 70) sample_state 0%nat
              [earlier_result] Hsess Hitems))).
Defined.

Lemma run_completes_iff_key_witness :
  secrets evaluation_inputs !! "GOOGLE_API_KEY" = Some "key"
  /\ fst (script evaluation_inputs sample_state) = Completed.
Proof.
  assert (Hkey : secrets evaluation_inputs !! "GOOGLE_API_KEY" = Some "key") by reflexivity.
  split; [exact Hkey|].
  apply (proj1 (run_completes_iff_key evaluation_inputs sample_state)).
  rewrite Hkey. by eexists.
Defined.

Lemma display_follows_evaluation_witness :
  secrets evaluation_inputs !! "GOOGLE_API_KEY" = Some "key"
  /\ evaluate_clicked evaluation_inputs = true
  /\ job_description evaluation_inputs <> ""
  /\ uploaded_files evaluation_inputs <> []
  /\ result_set (snd (script evaluation_inputs sample_state))
     = result_set (snd (evaluate_resumes sample_jd sample_files
                          (at_button "key" sample_state))).
Proof.
  assert (Hkey : secrets evaluation_inputs !! "GOOGLE_API_KEY" = Some "key") by reflexivity.
  assert (Hclick : evaluate_clicked evaluation_inputs = true) by reflexivity.
  assert (Hjd : job_description evaluation_inputs <> "") by discriminate.
  assert (Hfiles : uploaded_files evaluation_inputs <> []) by discriminate.
  destruct (display_follows_evaluation evaluation_inputs sample_state "key"
              Hkey Hclick Hjd Hfiles) as (_ & _ & Hsame & _).
  exact (conj Hkey (conj Hclick (conj Hjd (conj Hfiles Hsame)))).
Defined.

Example sample_run_with_scan :
  List.filter external_call_b
    (new_events sample_state
       (snd (evaluate_resumes sample_jd [scan_png; table_csv; cv_pdf] sample_state)))
  = [ EvOcrCall "application/octet-stream" (String.list_byte_of_string "pixels");
      EvScorerCall sample_jd "scanned resume";
      EvScorerCall sample_jd "Jane Doe, Python" ].
Proof. vm_compute. reflexivity. Qed.

Lemma ocr_exactly_for_images_witness :
  In (file_extension scan_png) image_extensions
  /\ List.filter external_call_b
       (new_events sample_state (snd (get_file_text scan_png sample_state)))
     = [EvOcrCall (file_type scan_png) (file_data scan_png)].
Proof.
  assert (Himage : In (file_extension scan_png) image_extensions) by (left; reflexivity).
  exact (conj Himage
           (proj1 (proj2 (ocr_exactly_for_images scan_png sample_state)) Himage)).
Defined.
